(** * LiteX MIPS CPU wrappers: the i6500 power-up sequencer and the BIOS maps

    Shallow embedding of
    - [litex/soc/cores/cpu/i6500/core.py]   (class [i6500]),
    - [litex/soc/cores/cpu/mipsfpga/core.py] (class [MIPSFPGA]).

    The only sequential logic of the two wrappers is the reset / power-up
    state machine of [i6500.__init__]: a two-state Migen [FSM] gated by a
    [WaitTimer(128)].  It is modelled as a synchronous circuit: registers
    are fields of a record, combinatorial signals are functions of the
    registers, and one clock edge is a function from registers to
    registers.  The same logic is also kept as the Migen statements that
    [__init__] builds, simulated over valuations of all the signals of
    the design, and the functions are shown to agree with it. *)

From Stdlib Require Import ZArith Bool Lia List Ascii String.
Import ListNotations.

Open Scope Z_scope.

(** ** Migen helpers used by the wrappers *)

Module Migen.

(** [log2_int(n, need_pow2=False)]: the least [r] with [n <= 2^r]
    (the loop [l = 1; r = 0; while l < n: l *= 2; r += 1]). *)
Definition log2_int (n : Z) : Z := Z.log2_up n.

(** [bits_for(n)]: the width of a [Signal] able to hold [n]. *)
Definition bits_for (n : Z) : Z :=
  if 0 <? n then log2_int (n + 1) else log2_int (- n) + 1.

(** An unsigned [Signal(w)] keeps the low [w] bits of what is assigned. *)
Definition truncate (w v : Z) : Z := v mod 2 ^ w.

End Migen.

(** ** The wait timer *)

Module WaitTimer.

Section Timer.

(** The constructor argument: [WaitTimer(t)]. *)
Variable t : Z.

(** Modelled from the spec: the [WaitTimer] class ([litex.gen.genlib.misc])
    is not among the source files.  Its counter is
    [count = Signal(bits_for(t), reset=t)]; this is the signal's width. *)
Definition width : Z := Migen.bits_for t.

(** Modelled from the spec: [WaitTimer] is not among the source files.
    The counter's reset value, [count.reset]; the spec's settling period
    of [t] ticks. *)
Definition count_reset : Z := t.

(** Modelled from the spec: [WaitTimer] is not among the source files.
    The "done" indication of the spec, [self.done.eq(count == 0)]. *)
Definition done (count : Z) : bool := count =? 0.

(** Modelled from the spec: [WaitTimer] is not among the source files.
    The spec calls it a countdown timer primitive with a "done"
    indication, counting the ticks elapsed while the sequencer is
    resetting.  Its clocked process is
    [If(wait, If(~done, count.eq(count - 1))).Else(count.eq(count.reset))]:
    the counter runs down from [t] while [wait] is high, stops at zero,
    and is reloaded as soon as [wait] is low. *)
Definition sync (wait : bool) (count : Z) : Z :=
  if wait then
    if negb (done count) then Migen.truncate width (count - 1) else count
  else count_reset.

End Timer.

End WaitTimer.

(** ** Python strings, as far as the wrappers use them *)

Module Py.

(** A [str] is the list of its characters; a character is a code point
    below 256. *)
Definition str : Type := list ascii.

(** A string literal of the source. *)
Definition lit (s : string) : str := list_ascii_of_string s.

(** [s.startswith(p)] *)
Fixpoint startswith (p s : str) : bool :=
  match p, s with
  | [], _ => true
  | _ :: _, [] => false
  | a :: p', b :: s' => Ascii.eqb a b && startswith p' s'
  end.

(** [s.endswith(p)] *)
Definition endswith (p s : str) : bool := startswith (rev p) (rev s).

(** [sub in s] *)
Fixpoint contains (sub s : str) : bool :=
  startswith sub s ||
  match s with
  | [] => false
  | _ :: t => contains sub t
  end.

(** [c.isspace()] on code points below 256: TAB to CR, FS to US, space,
    NEL and the no-break space. *)
Definition isspace (c : ascii) : bool :=
  let n := N_of_ascii c in
  ((9 <=? n) && (n <=? 13) || (28 <=? n) && (n <=? 31) ||
   (n =? 32) || (n =? 133) || (n =? 160))%N.

Fixpoint lstrip_where (P : ascii -> bool) (s : str) : str :=
  match s with
  | [] => []
  | c :: t => if P c then lstrip_where P t else s
  end.

(** Removal of the trailing characters that satisfy [P]. *)
Definition rstrip_where (P : ascii -> bool) (s : str) : str :=
  rev (lstrip_where P (rev s)).

(** [s.rstrip()] *)
Definition rstrip (s : str) : str := rstrip_where isspace s.

(** [s.rstrip(chars)] *)
Definition rstrip_chars (chars s : str) : str :=
  rstrip_where (fun c => existsb (Ascii.eqb c) chars) s.

(** [os.path.join(a, b)] of [posixpath]: an absolute [b] replaces [a];
    otherwise a separator is put in unless [a] is empty or has one. *)
Definition path_join (a b : str) : str :=
  if startswith (lit "/") b then b
  else if (match a with [] => true | _ :: _ => false end)
          || endswith (lit "/") a
       then a ++ b
       else a ++ lit "/" ++ b.

End Py.

(** ** Migen statements and their simulation *)

Module Fhdl.

Section Language.

(** The signals of a design, with decidable equality, their widths
    and their reset values. *)
Variable Signal : Type.
Variable Signal_eq_dec : forall a b : Signal, {a = b} + {a <> b}.
Variable nbits : Signal -> Z.
Variable reset : Signal -> Z.

(** A valuation of every signal of the design. *)
Definition Env : Type := Signal -> Z.

Definition upd (env : Env) (s : Signal) (v : Z) : Env :=
  fun x => if Signal_eq_dec x s then v else env x.

(** Expressions: constants, signals, [a == b], [~a] on [w] bits,
    [a & b], [a - b]. *)
Inductive Expr : Type :=
  | Constant (v : Z)
  | Read (s : Signal)
  | Eq (a b : Expr)
  | Inv (w : Z) (a : Expr)
  | And (a b : Expr)
  | Sub (a b : Expr).

Fixpoint eval (env : Env) (e : Expr) : Z :=
  match e with
  | Constant v => v
  | Read s => env s
  | Eq a b => if eval env a =? eval env b then 1 else 0
  | Inv w a => Migen.truncate w (Z.lnot (eval env a))
  | And a b => Z.land (eval env a) (eval env b)
  | Sub a b => eval env a - eval env b
  end.

(** Statements: [s.eq(e)], [If(c, t).Else(f)], a statement after
    another, and the empty statement. *)
Inductive Stmt : Type :=
  | Assign (s : Signal) (e : Expr)
  | If (c : Expr) (t f : Stmt)
  | Seq (a b : Stmt)
  | Nop.

(** A list of statements. *)
Fixpoint Block (l : list Stmt) : Stmt :=
  match l with
  | [] => Nop
  | s :: r => Seq s (Block r)
  end.

(** [Case(e, {k: body, ...}).makedefault(...)]: the first arm whose key
    equals [e], the default when none does. *)
Fixpoint Case (e : Expr) (arms : list (Z * Stmt)) (default : Stmt) : Stmt :=
  match arms with
  | [] => default
  | (k, body) :: r => If (Eq e (Constant k)) body (Case e r default)
  end.

(** Execution of a statement: expressions are read in [rd], assignments
    go to [wr] and keep the low bits the target has; a later assignment
    to the same signal wins. *)
Fixpoint exec (rd : Env) (st : Stmt) (wr : Env) : Env :=
  match st with
  | Assign s e => upd wr s (Migen.truncate (nbits s) (eval rd e))
  | If c t f => if eval rd c =? 0 then exec rd f wr else exec rd t wr
  | Seq a b => exec rd b (exec rd a wr)
  | Nop => wr
  end.

(** The design: its combinatorial statements and the signals they
    drive, its clocked statements and the registers they drive, and the
    reset of the clock domain. *)
Variable comb : Stmt.
Variable is_comb : Signal -> bool.
Variable sync : Stmt.
Variable is_reg : Signal -> bool.
Variable domain_rst : Signal.

(** One evaluation of the combinatorial logic: every combinatorial
    signal starts from its reset value and takes what the statements
    assign, computed from the values of the previous evaluation. *)
Definition comb_pass (env : Env) : Env :=
  exec env comb (fun s => if is_comb s then reset s else env s).

(** The combinatorial logic, evaluated until it is stable: [depth]
    evaluations. *)
Definition settle (depth : nat) (env : Env) : Env :=
  Nat.iter depth comb_pass env.

(** One clock edge: the clocked statements read the settled values and
    write the registers; the reset of the domain, when high, puts every
    register at its reset value instead. *)
Definition clock (depth : nat) (env : Env) : Env :=
  let s := settle depth env in
  let w := exec s sync s in
  if s domain_rst =? 0 then w
  else fun x => if is_reg x then reset x else w x.

End Language.

Arguments Constant {Signal} v.
Arguments Read {Signal} s.
Arguments Eq {Signal} a b.
Arguments Inv {Signal} w a.
Arguments And {Signal} a b.
Arguments Sub {Signal} a b.
Arguments Assign {Signal} s e.
Arguments If {Signal} c t f.
Arguments Seq {Signal} a b.
Arguments Nop {Signal}.
Arguments Block {Signal} l.
Arguments Case {Signal} e arms default.

End Fhdl.

(** ** The i6500 wrapper *)

Module i6500.

(** [FSM(reset_state="RST")] with the two states declared by [fsm.act]. *)
Inductive State : Type := RST | PWR_UP.

(** The registers of the sequencer, all in the [sys] clock domain:
    the state register of [fsm] and the counter of [trst_timer]. *)
Record Sequencer : Type := mkSequencer {
  fsm : State;
  trst_timer_count : Z
}.

(** [trst_timer = WaitTimer(128)] *)
Definition trst_time : Z := 128.

(** Register values while [ResetSignal("sys")] is applied, which are also
    the power-on values. *)
Definition reset_state : Sequencer :=
  {| fsm := RST; trst_timer_count := WaitTimer.count_reset trst_time |}.

(** *** Combinatorial signals *)

(** [trst_timer.wait.eq(1)] appears in state [RST] only; a signal that
    is not driven in the active state takes its reset value, 0. *)
Definition trst_timer_wait (s : Sequencer) : bool :=
  match fsm s with
  | RST => true
  | PWR_UP => false
  end.

Definition trst_timer_done (s : Sequencer) : bool :=
  WaitTimer.done (trst_timer_count s).

(** [self.si_cpc_reset_n]: 0 in [RST], 1 in [PWR_UP]. *)
Definition si_cpc_reset_n (s : Sequencer) : bool :=
  match fsm s with
  | RST => false
  | PWR_UP => true
  end.

(** [self.si_cluster_pwr_on_n]: 0 in [RST], 1 in [PWR_UP]. *)
Definition si_cluster_pwr_on_n (s : Sequencer) : bool :=
  match fsm s with
  | RST => false
  | PWR_UP => true
  end.

(** [If(trst_timer.done, NextState("PWR_UP"))] in [RST]; no [NextState]
    in [PWR_UP], so the state register keeps its value there. *)
Definition next_state (s : Sequencer) : State :=
  match fsm s with
  | RST => if trst_timer_done s then PWR_UP else RST
  | PWR_UP => PWR_UP
  end.

(** [ResetInserter()] gives [fsm] a [reset] input of its own.  The
    wrapper never drives it, so it stays at 0. *)
Definition fsm_reset : bool := false.

(** [i_si_reset_n = ~ResetSignal("sys") & ~self.reset]: the CPU's own
    reset line.  [self.reset] goes to the CPU instance only; it is not an
    input of the sequencer. *)
Definition si_reset_n (sys_rst cpu_reset : bool) : bool :=
  negb sys_rst && negb cpu_reset.

(** *** One clock edge *)

(** The clocked processes of [fsm] and [trst_timer]; the domain reset
    comes last in a Migen sync block and overrides every assignment. *)
Definition sync (sys_rst : bool) (s : Sequencer) : Sequencer :=
  if sys_rst then reset_state
  else
    {| fsm := if fsm_reset then RST else next_state s;
       trst_timer_count :=
         WaitTimer.sync trst_time (trst_timer_wait s) (trst_timer_count s) |}.

(** *** The sequencer as the spec presents it *)

Record ControlOutputs : Type := mkControlOutputs {
  clusterResetAsserted : bool;
  clusterPowerAsserted : bool
}.

(** Both pins are active low: "asserted" is the pin at 0. *)
Definition outputs (s : Sequencer) : ControlOutputs :=
  {| clusterResetAsserted := negb (si_cpc_reset_n s);
     clusterPowerAsserted := negb (si_cluster_pwr_on_n s) |}.

(** Ticks elapsed in the settling period: the timer counts down from
    128, the spec's counter counts up from 0. *)
Definition SettleCounter (s : Sequencer) : Z :=
  trst_time - trst_timer_count s.

(** [onTick]: advance by one clock edge, then read the outputs.  The
    reset input is the reset of the [sys] clock domain, the only reset
    that reaches the registers of [fsm] and [trst_timer]. *)
Definition onTick (externalResetAsserted : bool) (s : Sequencer)
  : Sequencer * ControlOutputs :=
  let s' := sync externalResetAsserted s in (s', outputs s').

(** The state after [n] ticks from [s0]; tick [k] (counted from 1) has
    the reset input [ext k]. *)
Fixpoint run_from (s0 : Sequencer) (ext : nat -> bool) (n : nat) : Sequencer :=
  match n with
  | O => s0
  | S m => fst (onTick (ext n) (run_from s0 ext m))
  end.

(** The outputs returned by the [n]-th call of [onTick]; before the
    first call, what the pins show in [s0]. *)
Definition outputs_at (s0 : Sequencer) (ext : nat -> bool) (n : nat)
  : ControlOutputs :=
  match n with
  | O => outputs s0
  | S m => snd (onTick (ext n) (run_from s0 ext m))
  end.

(** A run from a freshly reset sequencer. *)
Definition run (ext : nat -> bool) (n : nat) : Sequencer :=
  run_from reset_state ext n.

(** States the circuit can be in: the reset state and whatever a clock
    edge makes of a reachable state. *)
Inductive reachable : Sequencer -> Prop :=
  | reachable_reset : reachable reset_state
  | reachable_tick (ext : bool) (s : Sequencer) :
      reachable s -> reachable (fst (onTick ext s)).

(** *** Memory layout *)

(** The class attribute [io_regions]: origin and length. *)
Definition io_regions : list (Z * Z) := [(0x1000_0000, 0x0c00_0000)].

(** The property [mem_map]. *)
Definition mem_map : list (string * Z) :=
  [("main_ram"%string, 0x0000_0000);
   ("csr"%string,      0x1000_0000);
   ("sram"%string,     0x1c00_0000);
   ("rom"%string,      0x1fc0_0000)].

(** *** The source file list *)

(** The two calls [__init__] makes on [platform] while it reads the
    file list. *)
Inductive PlatformCall : Type :=
  | add_verilog_include_path (path : Py.str)
  | add_source (path : Py.str).

Definition call_path (c : PlatformCall) : Py.str :=
  match c with
  | add_verilog_include_path p => p
  | add_source p => p
  end.

(** [line.rstrip().rstrip('\').rstrip()] *)
Definition strip_continuation (line : Py.str) : Py.str :=
  Py.rstrip (Py.rstrip_chars (Py.lit "\") (Py.rstrip line)).

(** The pattern [\$MIPS_HOME\/(.+)] tried at the start of [s]: the
    literal text, then as many characters other than a newline as
    follow, at least one.  The result is group 1. *)
Fixpoint strip_prefix (p s : Py.str) : option Py.str :=
  match p, s with
  | [], _ => Some s
  | _ :: _, [] => None
  | a :: p', b :: s' => if Ascii.eqb a b then strip_prefix p' s' else None
  end.

Fixpoint dot_plus (s : Py.str) : Py.str :=
  match s with
  | [] => []
  | c :: t => if Ascii.eqb c "010"%char then [] else c :: dot_plus t
  end.

Definition match_at (s : Py.str) : option Py.str :=
  match strip_prefix (Py.lit "$MIPS_HOME/") s with
  | Some rest =>
      match dot_plus rest with
      | [] => None
      | g => Some g
      end
  | None => None
  end.

(** [re.search(r"\$MIPS_HOME\/(.+)", s)], reduced to [res.group(1)]:
    the match at the leftmost position that has one. *)
Fixpoint re_search (s : Py.str) : option Py.str :=
  match match_at s with
  | Some g => Some g
  | None =>
      match s with
      | [] => None
      | _ :: t => re_search t
      end
  end.

(** The loop variables: the flag [is_file] and the calls made on
    [platform] so far, oldest first. *)
Record Reader : Type := mkReader {
  is_file : bool;
  calls : list PlatformCall
}.

(** The body of [for line in lines]. *)
Definition read_line (basedir : Py.str) (st : Reader) (line : Py.str)
  : Reader :=
  if Py.contains (Py.lit "set INC_DIRS") line then
    {| is_file := false; calls := calls st |}
  else if Py.contains (Py.lit "set RTL_SOURCE_FILES") line then
    {| is_file := true; calls := calls st |}
  else
    match re_search (strip_continuation line) with
    | Some g =>
        if negb (is_file st) then
          {| is_file := is_file st;
             calls := calls st ++
                      [add_verilog_include_path (Py.path_join basedir g)] |}
        else
          {| is_file := is_file st;
             calls := calls st ++ [add_source (Py.path_join basedir g)] |}
    | None => st
    end.

(** The loop, from [is_file = False]; [basedir] is
    [os.environ["MIPS_HOME"]] and [lines] what [readlines()] gave. *)
Definition add_sources (basedir : Py.str) (lines : list Py.str) : Reader :=
  fold_left (read_line basedir) lines {| is_file := false; calls := [] |}.

(** [bios_map(addr, cached)]: the 64-bit kseg0 / kseg1 windows. *)
Definition bios_map (addr : Z) (cached : bool) : Z :=
  if cached then addr + 0xffff_ffff_8000_0000
  else addr + 0xffff_ffff_a000_0000.

(** *** The sequencer as Migen statements *)

Module Design.

(** The signals [__init__] declares or reads, the two signals of
    [trst_timer] and its counter, the signals of [fsm], and the two
    expressions bound to ports of the CPU instance that involve a
    reset or the interrupt lines. *)
Inductive Signal : Type :=
  | sys_rst
  | self_reset
  | self_interrupt
  | self_si_cpc_reset_n
  | self_si_cluster_pwr_on_n
  | wait
  | done
  | count
  | fsm_reset
  | state
  | next_state
  | i_si_reset_n
  | i_si_cm_int.

Definition Signal_eq_dec (a b : Signal) : {a = b} + {a <> b}.
Proof. decide equality. Defined.

(** [Signal()] is one bit wide, [Signal(7)] seven; [fsm] has two
    states, so [Signal(max=2)] is one bit; the counter has
    [bits_for(128)] bits. *)
Definition nbits (s : Signal) : Z :=
  match s with
  | self_interrupt | i_si_cm_int => 7
  | count => WaitTimer.width trst_time
  | _ => 1
  end.

(** Reset values: [count] restarts from 128, [state] from the encoding
    of [reset_state="RST"], which is 0; every other signal from 0. *)
Definition reset (s : Signal) : Z :=
  match s with
  | count => WaitTimer.count_reset trst_time
  | _ => 0
  end.

(** The encoding of the states, in the order of the [fsm.act] calls. *)
Definition encoding (st : State) : Z :=
  match st with
  | RST => 0
  | PWR_UP => 1
  end.

(** [fsm.act("RST", ...)], with [NextState("PWR_UP")] lowered to an
    assignment to [next_state]. *)
Definition act_RST : Fhdl.Stmt Signal :=
  Fhdl.Block
    [Fhdl.Assign wait (Fhdl.Constant 1);
     Fhdl.Assign self_si_cpc_reset_n (Fhdl.Constant 0);
     Fhdl.Assign self_si_cluster_pwr_on_n (Fhdl.Constant 0);
     Fhdl.If (Fhdl.Read done)
       (Fhdl.Assign next_state (Fhdl.Constant (encoding PWR_UP)))
       Fhdl.Nop].

(** [fsm.act("PWR_UP", ...)] *)
Definition act_PWR_UP : Fhdl.Stmt Signal :=
  Fhdl.Block
    [Fhdl.Assign self_si_cpc_reset_n (Fhdl.Constant 1);
     Fhdl.Assign self_si_cluster_pwr_on_n (Fhdl.Constant 1)].

(** Modelled from the spec: [WaitTimer] is not among the source files;
    its combinatorial statement, [self.done.eq(count == 0)]. *)
Definition timer_comb : Fhdl.Stmt Signal :=
  Fhdl.Assign done (Fhdl.Eq (Fhdl.Read count) (Fhdl.Constant 0)).

(** Modelled from the spec: [WaitTimer] is not among the source files;
    its clocked statement,
    [If(wait, If(~done, count.eq(count - 1))).Else(count.eq(count.reset))]. *)
Definition timer_sync : Fhdl.Stmt Signal :=
  Fhdl.If (Fhdl.Read wait)
    (Fhdl.If (Fhdl.Inv 1 (Fhdl.Read done))
       (Fhdl.Assign count (Fhdl.Sub (Fhdl.Read count) (Fhdl.Constant 1)))
       Fhdl.Nop)
    (Fhdl.Assign count (Fhdl.Constant (WaitTimer.count_reset trst_time))).

(** What [FSM] makes of the two [act] calls: [next_state] defaults to
    [state], then the statements of the current state apply; the
    default arm is the one of the reset state. *)
Definition fsm_comb : Fhdl.Stmt Signal :=
  Fhdl.Block
    [Fhdl.Assign next_state (Fhdl.Read state);
     Fhdl.Case (Fhdl.Read state)
       [(encoding RST, act_RST); (encoding PWR_UP, act_PWR_UP)]
       act_RST].

(** The state register, and what [ResetInserter] adds to it. *)
Definition fsm_sync : Fhdl.Stmt Signal :=
  Fhdl.Block
    [Fhdl.Assign state (Fhdl.Read next_state);
     Fhdl.If (Fhdl.Read fsm_reset)
       (Fhdl.Assign state (Fhdl.Constant (reset state)))
       Fhdl.Nop].

(** [i_si_reset_n = ~ResetSignal("sys") & ~self.reset] and
    [i_si_cm_int = self.interrupt]. *)
Definition ports : Fhdl.Stmt Signal :=
  Fhdl.Block
    [Fhdl.Assign i_si_reset_n
       (Fhdl.And (Fhdl.Inv 1 (Fhdl.Read sys_rst))
                 (Fhdl.Inv 1 (Fhdl.Read self_reset)));
     Fhdl.Assign i_si_cm_int (Fhdl.Read self_interrupt)].

Definition comb : Fhdl.Stmt Signal := Fhdl.Block [timer_comb; fsm_comb; ports].

Definition sync : Fhdl.Stmt Signal := Fhdl.Block [timer_sync; fsm_sync].

(** The registers are [state] and [count]; [sys_rst], [self.reset] and
    [self.interrupt] come from outside; the rest is combinatorial
    ([fsm.reset] has no driver and keeps its reset value). *)
Definition is_reg (s : Signal) : bool :=
  match s with
  | state | count => true
  | _ => false
  end.

Definition is_input (s : Signal) : bool :=
  match s with
  | sys_rst | self_reset | self_interrupt => true
  | _ => false
  end.

Definition is_comb (s : Signal) : bool := negb (is_reg s) && negb (is_input s).

Definition Env : Type := Fhdl.Env Signal.

(** [done] is one evaluation behind [count], [next_state] one behind
    [done]; a third evaluation changes nothing. *)
Definition depth : nat := 3.

Definition comb_pass (env : Env) : Env :=
  Fhdl.comb_pass Signal Signal_eq_dec nbits reset comb is_comb env.

Definition settle (env : Env) : Env :=
  Fhdl.settle Signal Signal_eq_dec nbits reset comb is_comb depth env.

Definition clock (env : Env) : Env :=
  Fhdl.clock Signal Signal_eq_dec nbits reset comb is_comb sync is_reg
    sys_rst depth env.

(** The values the inputs take for a tick, put on a valuation. *)
Definition drive (inputs env : Env) : Env :=
  fun s => if is_input s then inputs s else env s.

(** The registers and the two pins, read off a valuation. *)
Definition registers (env : Env) : Sequencer :=
  {| fsm := if env state =? encoding RST then RST else PWR_UP;
     trst_timer_count := env count |}.

Definition pins (env : Env) : ControlOutputs :=
  {| clusterResetAsserted := env self_si_cpc_reset_n =? 0;
     clusterPowerAsserted := env self_si_cluster_pwr_on_n =? 0 |}.

(** The valuation after [n] ticks from [env0]; the inputs of tick [k]
    are those of [inputs k]. *)
Fixpoint run (env0 : Env) (inputs : nat -> Env) (n : nat) : Env :=
  match n with
  | O => env0
  | S m => clock (drive (inputs n) (run env0 inputs m))
  end.

End Design.

End i6500.

(** ** The MIPSFPGA wrapper *)

Module MIPSFPGA.

(** The class attribute [io_regions]: origin and length. *)
Definition io_regions : list (Z * Z) := [(0x1000_0000, 0x0c00_0000)].

(** The property [mem_map]. *)
Definition mem_map : list (string * Z) :=
  [("main_ram"%string, 0x0000_0000);
   ("csr"%string,      0x1800_0000);
   ("sram"%string,     0x1c00_0000);
   ("rom"%string,      0x1fc0_0000)].

(** [bios_map(addr, cached)]: the 32-bit kseg0 / kseg1 windows. *)
Definition bios_map (addr : Z) (cached : bool) : Z :=
  if cached then addr + 0x8000_0000
  else addr + 0xa000_0000.

End MIPSFPGA.

Import i6500.

(** * Properties *)

(** ** The timer *)

Lemma trst_timer_width : WaitTimer.width trst_time = 8.
Proof. reflexivity. Qed.

(** While waiting with a count in [1 .. 128] the timer loses one. *)
Lemma timer_counts_down (c : Z) :
  1 <= c <= 128 -> WaitTimer.sync trst_time true c = c - 1.
Proof.
  intros Hc. unfold WaitTimer.sync, WaitTimer.done.
  destruct (Z.eqb_spec c 0) as [E | _]; [lia |]. cbn [negb].
  unfold Migen.truncate. rewrite trst_timer_width.
  apply Z.mod_small. lia.
Qed.

Lemma timer_holds_zero : WaitTimer.sync trst_time true 0 = 0.
Proof. reflexivity. Qed.

Lemma timer_reloads (c : Z) : WaitTimer.sync trst_time false c = 128.
Proof. reflexivity. Qed.

(** ** One clock edge, case by case *)

Lemma sync_reset (s : Sequencer) : sync true s = reset_state.
Proof. reflexivity. Qed.

Lemma sync_RST_counting (c : Z) :
  1 <= c <= 128 ->
  sync false (mkSequencer RST c) = mkSequencer RST (c - 1).
Proof.
  intros Hc. unfold sync, next_state, trst_timer_done, trst_timer_wait.
  cbn [fsm trst_timer_count fsm_reset].
  rewrite timer_counts_down by exact Hc.
  unfold WaitTimer.done.
  destruct (Z.eqb_spec c 0) as [E | _]; [lia | reflexivity].
Qed.

Lemma sync_RST_done :
  sync false (mkSequencer RST 0) = mkSequencer PWR_UP 0.
Proof. reflexivity. Qed.

Lemma sync_PWR_UP (c : Z) :
  sync false (mkSequencer PWR_UP c) = mkSequencer PWR_UP 128.
Proof. reflexivity. Qed.

(** In [RST] the next state is [PWR_UP] exactly when the counter is
    already at zero before the edge. *)
Lemma sync_RST_leaves (s : Sequencer) :
  fsm s = RST ->
  (fsm (sync false s) = PWR_UP <-> trst_timer_count s = 0).
Proof.
  destruct s as [st c]. cbn [fsm trst_timer_count]. intros ->.
  unfold sync, next_state, trst_timer_done, WaitTimer.done.
  cbn [fsm trst_timer_count fsm_reset].
  destruct (Z.eqb_spec c 0) as [E | N]; split; intros H;
    congruence || discriminate || reflexivity.
Qed.

Lemma sync_keeps_PWR_UP (s : Sequencer) :
  fsm s = PWR_UP -> fsm (sync false s) = PWR_UP.
Proof. destruct s as [st c]. cbn [fsm]. intros ->. reflexivity. Qed.

(** The outputs are a function of the state register alone. *)
Lemma outputs_RST (s : Sequencer) :
  fsm s = RST -> outputs s = mkControlOutputs true true.
Proof.
  intros H. unfold outputs, si_cpc_reset_n, si_cluster_pwr_on_n.
  rewrite H. reflexivity.
Qed.

Lemma outputs_PWR_UP (s : Sequencer) :
  fsm s = PWR_UP -> outputs s = mkControlOutputs false false.
Proof.
  intros H. unfold outputs, si_cpc_reset_n, si_cluster_pwr_on_n.
  rewrite H. reflexivity.
Qed.

(** ** Runs *)

Lemma run_from_S (s0 : Sequencer) (ext : nat -> bool) (n : nat) :
  run_from s0 ext (S n) = sync (ext (S n)) (run_from s0 ext n).
Proof. reflexivity. Qed.

Lemma outputs_at_S (s0 : Sequencer) (ext : nat -> bool) (n : nat) :
  outputs_at s0 ext (S n) = outputs (run_from s0 ext (S n)).
Proof. reflexivity. Qed.

(** A run reads its input stream at ticks [1 .. n] only. *)
Lemma run_from_agree (s0 : Sequencer) (e1 e2 : nat -> bool) (n : nat) :
  (forall k, (1 <= k <= n)%nat -> e1 k = e2 k) ->
  run_from s0 e1 n = run_from s0 e2 n.
Proof.
  induction n as [| n IH]; intros Hk.
  - reflexivity.
  - rewrite !run_from_S, IH, (Hk (S n)) by (intros; try apply Hk; lia).
    reflexivity.
Qed.

(** With the reset input low, a fresh sequencer counts down for 128
    ticks without leaving [RST]. *)
Lemma run_counting (ext : nat -> bool) (n : nat) :
  (forall k, ext k = false) -> (n <= 128)%nat ->
  run ext n = mkSequencer RST (128 - Z.of_nat n).
Proof.
  intros Hq. induction n as [| n IH]; intros Hn.
  - reflexivity.
  - unfold run in *. rewrite run_from_S, Hq, IH by lia.
    rewrite sync_RST_counting by lia. f_equal. lia.
Qed.

Lemma run_129 (ext : nat -> bool) :
  (forall k, ext k = false) -> run ext 129 = mkSequencer PWR_UP 0.
Proof.
  intros Hq. unfold run.
  change 129%nat with (S 128). rewrite run_from_S, Hq.
  fold (run ext 128). rewrite run_counting by (assumption || lia).
  reflexivity.
Qed.

(** Once in [PWR_UP], a run with the reset input low stays there. *)
Lemma run_from_PWR_UP (s0 : Sequencer) (ext : nat -> bool) (n : nat) :
  fsm s0 = PWR_UP -> (forall k, ext k = false) ->
  fsm (run_from s0 ext n) = PWR_UP.
Proof.
  intros H0 Hq. induction n as [| n IH].
  - exact H0.
  - rewrite run_from_S, Hq. apply sync_keeps_PWR_UP, IH.
Qed.

Lemma run_from_add (s0 : Sequencer) (ext : nat -> bool) (m n : nat) :
  run_from s0 ext (n + m) =
  run_from (run_from s0 ext m) (fun k => ext (k + m)%nat) n.
Proof.
  induction n as [| n IH].
  - reflexivity.
  - cbn [Nat.add]. rewrite !run_from_S, IH. reflexivity.
Qed.

Lemma run_late (ext : nat -> bool) (n : nat) :
  (forall k, ext k = false) -> (129 <= n)%nat ->
  fsm (run ext n) = PWR_UP.
Proof.
  intros Hq Hn. unfold run.
  replace n with ((n - 129) + 129)%nat by lia.
  rewrite run_from_add. apply run_from_PWR_UP.
  - fold (run ext 129). rewrite run_129 by assumption. reflexivity.
  - intros k. apply Hq.
Qed.

(** The boundary of the settling period and a restart, evaluated. *)

Example quiet_tick_128 :
  onTick false (run (fun _ => false) 127) =
  (mkSequencer RST 0, mkControlOutputs true true).
Proof. vm_compute. reflexivity. Qed.

Example quiet_tick_129 :
  onTick false (run (fun _ => false) 128) =
  (mkSequencer PWR_UP 0, mkControlOutputs false false).
Proof. vm_compute. reflexivity. Qed.

Example quiet_tick_130 :
  onTick false (run (fun _ => false) 129) =
  (mkSequencer PWR_UP 128, mkControlOutputs false false).
Proof. vm_compute. reflexivity. Qed.

Example reset_pulse_restarts :
  run (fun k => Nat.eqb k 200) 200 = reset_state /\
  run (fun k => Nat.eqb k 200) 328 = mkSequencer RST 0 /\
  run (fun k => Nat.eqb k 200) 329 = mkSequencer PWR_UP 0.
Proof. vm_compute. repeat split. Qed.

(** ** Reachable states *)

Lemma reachable_count (s : Sequencer) :
  reachable s -> 0 <= trst_timer_count s <= 128.
Proof.
  induction 1 as [| ext s _ IH].
  - cbn. unfold WaitTimer.count_reset, trst_time. lia.
  - cbn [onTick fst]. destruct ext.
    + rewrite sync_reset. cbn. unfold WaitTimer.count_reset, trst_time. lia.
    + destruct s as [[|] c]; cbn [trst_timer_count] in IH.
      * destruct (Z.eq_dec c 0) as [-> | N].
        -- rewrite sync_RST_done. cbn. lia.
        -- rewrite sync_RST_counting by lia. cbn. lia.
      * rewrite sync_PWR_UP. cbn. lia.
Qed.

(** ** The settling window *)

(** C1.  In a run from a freshly reset sequencer whose reset input is
    low on every tick, [clusterResetAsserted] and [clusterPowerAsserted]
    are both true on ticks 1 to 128 and both false on tick 129 and on
    every later tick. *)
Theorem settling_window (ext : nat -> bool) (n : nat) :
  (forall k, ext k = false) ->
  ((1 <= n <= 128)%nat ->
     clusterResetAsserted (outputs_at reset_state ext n) = true /\
     clusterPowerAsserted (outputs_at reset_state ext n) = true) /\
  ((129 <= n)%nat ->
     clusterResetAsserted (outputs_at reset_state ext n) = false /\
     clusterPowerAsserted (outputs_at reset_state ext n) = false).
Proof.
  intros Hq. split; intros Hn.
  - destruct n as [| n]; [lia |].
    rewrite outputs_at_S. fold (run ext (S n)).
    rewrite run_counting by (assumption || lia). split; reflexivity.
  - destruct n as [| n]; [lia |].
    rewrite outputs_at_S. fold (run ext (S n)).
    rewrite (outputs_PWR_UP _ (run_late ext (S n) Hq Hn)).
    split; reflexivity.
Qed.

Lemma settling_window_witness :
  (clusterResetAsserted (outputs_at reset_state (fun _ => false) 128) = true /\
   clusterPowerAsserted (outputs_at reset_state (fun _ => false) 128) = true) /\
  (clusterResetAsserted (outputs_at reset_state (fun _ => false) 129) = false /\
   clusterPowerAsserted (outputs_at reset_state (fun _ => false) 129) = false).
Proof.
  split.
  - apply (settling_window (fun _ => false) 128 (fun _ => eq_refl)). lia.
  - apply (settling_window (fun _ => false) 129 (fun _ => eq_refl)). lia.
Defined.

(** ** Reset *)

(** C2.  Whatever the current state and counter, a tick with the reset
    input high ends in [RST] with the settle counter at 0 (and both
    outputs asserted). *)
Theorem reset_forces_resetting (s : Sequencer) :
  fsm (fst (onTick true s)) = RST /\
  SettleCounter (fst (onTick true s)) = 0 /\
  snd (onTick true s) = mkControlOutputs true true.
Proof. repeat split. Qed.

(** C5.  While the reset input is high on every tick, the sequencer is
    in [RST] after every tick, with both outputs true; it is never in
    [PWR_UP]. *)
Theorem held_reset_stays_resetting
    (s0 : Sequencer) (ext : nat -> bool) (n : nat) :
  (forall k, ext k = true) ->
  fsm (run_from s0 ext (S n)) = RST /\
  fsm (run_from s0 ext (S n)) <> PWR_UP /\
  clusterResetAsserted (outputs_at s0 ext (S n)) = true /\
  clusterPowerAsserted (outputs_at s0 ext (S n)) = true.
Proof.
  intros Hr. rewrite outputs_at_S, run_from_S, Hr, sync_reset.
  repeat split. discriminate.
Qed.

Lemma held_reset_stays_resetting_witness :
  fsm (run_from (mkSequencer PWR_UP 128) (fun _ => true) 3) = RST /\
  fsm (run_from (mkSequencer PWR_UP 128) (fun _ => true) 3) <> PWR_UP /\
  clusterResetAsserted
    (outputs_at (mkSequencer PWR_UP 128) (fun _ => true) 3) = true /\
  clusterPowerAsserted
    (outputs_at (mkSequencer PWR_UP 128) (fun _ => true) 3) = true.
Proof.
  exact (held_reset_stays_resetting
           (mkSequencer PWR_UP 128) (fun _ => true) 2 (fun _ => eq_refl)).
Defined.

(** ** Outputs and state *)

(** C3.  In every reachable state both outputs are true exactly when the
    state is [RST], and both are false exactly when it is [PWR_UP]. *)
Theorem outputs_iff_state (s : Sequencer) :
  reachable s ->
  ((clusterResetAsserted (outputs s) = true /\
    clusterPowerAsserted (outputs s) = true) <-> fsm s = RST) /\
  ((clusterResetAsserted (outputs s) = false /\
    clusterPowerAsserted (outputs s) = false) <-> fsm s = PWR_UP).
Proof.
  intros _. destruct (fsm s) eqn:E.
  - rewrite (outputs_RST s E). cbn.
    repeat split; try reflexivity; intros; intuition discriminate.
  - rewrite (outputs_PWR_UP s E). cbn.
    repeat split; try reflexivity; intros; intuition discriminate.
Qed.

Lemma outputs_iff_state_witness :
  ((clusterResetAsserted (outputs reset_state) = true /\
    clusterPowerAsserted (outputs reset_state) = true) <->
   fsm reset_state = RST) /\
  ((clusterResetAsserted (outputs reset_state) = false /\
    clusterPowerAsserted (outputs reset_state) = false) <->
   fsm reset_state = PWR_UP).
Proof. exact (outputs_iff_state reset_state reachable_reset). Defined.

(** C9.  In every reachable state, and in the outputs of every tick
    taken from one, the two outputs have the same value: the pins
    [si_cpc_reset_n] and [si_cluster_pwr_on_n] are never driven apart. *)
Theorem outputs_agree (s : Sequencer) (ext : bool) :
  reachable s ->
  si_cpc_reset_n s = si_cluster_pwr_on_n s /\
  clusterResetAsserted (outputs s) = clusterPowerAsserted (outputs s) /\
  clusterResetAsserted (snd (onTick ext s)) =
  clusterPowerAsserted (snd (onTick ext s)).
Proof. intros _. repeat split. Qed.

Lemma outputs_agree_witness :
  si_cpc_reset_n reset_state = si_cluster_pwr_on_n reset_state /\
  clusterResetAsserted (outputs reset_state) =
  clusterPowerAsserted (outputs reset_state) /\
  clusterResetAsserted (snd (onTick false reset_state)) =
  clusterPowerAsserted (snd (onTick false reset_state)).
Proof. exact (outputs_agree reset_state false reachable_reset). Defined.

(** ** The settle counter *)

(** C7.  In every reachable state the settle counter lies in [0, 128];
    a tick that increases it starts in [RST] with the reset input low
    and adds exactly one, so it never passes 128. *)
Theorem settle_counter_range (s : Sequencer) (ext : bool) :
  reachable s ->
  0 <= SettleCounter s <= 128 /\
  (SettleCounter s < SettleCounter (fst (onTick ext s)) ->
   fsm s = RST /\ ext = false /\
   SettleCounter (fst (onTick ext s)) = SettleCounter s + 1) /\
  (fsm s = PWR_UP ->
   SettleCounter (fst (onTick ext s)) <= SettleCounter s).
Proof.
  intros Hs. pose proof (reachable_count s Hs) as Hc.
  unfold SettleCounter, trst_time. cbn [onTick fst].
  split; [lia |].
  destruct ext.
  - rewrite sync_reset. unfold reset_state, WaitTimer.count_reset, trst_time.
    cbn [trst_timer_count fsm].
    split; [intros; exfalso; lia | intros; lia].
  - destruct s as [[|] c]; cbn [fsm trst_timer_count] in *.
    + destruct (Z.eq_dec c 0) as [-> | N].
      * rewrite sync_RST_done. cbn [trst_timer_count fsm].
        split; [intros; exfalso; lia | discriminate].
      * rewrite sync_RST_counting by lia. cbn [trst_timer_count fsm].
        split; [intros _; repeat split; lia | discriminate].
    + rewrite sync_PWR_UP. cbn [trst_timer_count fsm].
      split; [intros; exfalso; lia | intros; lia].
Qed.

Lemma settle_counter_range_witness :
  0 <= SettleCounter reset_state <= 128 /\
  (SettleCounter reset_state < SettleCounter (fst (onTick false reset_state)) ->
   fsm reset_state = RST /\ false = false /\
   SettleCounter (fst (onTick false reset_state)) =
   SettleCounter reset_state + 1) /\
  (fsm reset_state = PWR_UP ->
   SettleCounter (fst (onTick false reset_state)) <=
   SettleCounter reset_state).
Proof. exact (settle_counter_range reset_state false reachable_reset). Defined.

(** ** The transition to [PWR_UP] *)

(** C4, as stated, fails: tick 128 of a run with the reset input low is
    the tick at which the settle counter reaches 128, and the sequencer
    is still in [RST] after it, with both outputs asserted. *)
Lemma transition_same_tick_counterexample :
  SettleCounter (run (fun _ => false) 127) = 127 /\
  SettleCounter (run (fun _ => false) 128) = 128 /\
  fsm (run (fun _ => false) 128) = RST /\
  fsm (run (fun _ => false) 128) <> PWR_UP /\
  outputs_at reset_state (fun _ => false) 128 = mkControlOutputs true true.
Proof.
  assert (Hq : forall k : nat, (fun _ : nat => false) k = false)
    by reflexivity.
  rewrite outputs_at_S. fold (run (fun _ => false) 128).
  rewrite !run_counting by (assumption || lia).
  cbn. repeat split. discriminate.
Qed.

(** C4, amended.  A tick with the reset input low taken in [RST] ends in
    [PWR_UP] exactly when the settle counter had already reached 128
    before that tick.  In a run from reset with the reset input low the
    counter is below 128 before tick 128 and is 128 after it, and the
    state is [PWR_UP] from tick 129 on and on no earlier tick. *)
Theorem transition_follows_counter (s : Sequencer) (ext : nat -> bool) (n : nat) :
  reachable s -> fsm s = RST -> (forall k, ext k = false) ->
  (fsm (fst (onTick false s)) = PWR_UP <-> SettleCounter s = 128) /\
  ((n < 128)%nat -> SettleCounter (run ext n) < 128) /\
  SettleCounter (run ext 128) = 128 /\
  (fsm (run ext n) = PWR_UP <-> (129 <= n)%nat).
Proof.
  intros Hs HR Hq. split; [| split; [| split]].
  - cbn [onTick fst]. rewrite (sync_RST_leaves s HR).
    unfold SettleCounter, trst_time. lia.
  - intros Hn. rewrite run_counting by (assumption || lia).
    unfold SettleCounter, trst_time. cbn [trst_timer_count]. lia.
  - rewrite run_counting by (assumption || lia). reflexivity.
  - split.
    + intros HP. destruct (Nat.le_gt_cases 129 n) as [H | H]; [exact H |].
      rewrite run_counting in HP by (assumption || lia). discriminate.
    + apply run_late, Hq.
Qed.

Lemma transition_follows_counter_witness :
  (fsm (fst (onTick false (mkSequencer RST 0))) = PWR_UP <->
   SettleCounter (mkSequencer RST 0) = 128) /\
  ((129 < 128)%nat -> SettleCounter (run (fun _ => false) 129) < 128) /\
  SettleCounter (run (fun _ => false) 128) = 128 /\
  (fsm (run (fun _ => false) 129) = PWR_UP <-> (129 <= 129)%nat).
Proof.
  apply (transition_follows_counter (mkSequencer RST 0) (fun _ => false) 129).
  - change (mkSequencer RST 0) with (run (fun _ => false) 128).
    unfold run. generalize 128%nat. intros m. induction m as [| m IH].
    + exact reachable_reset.
    + exact (reachable_tick false _ IH).
  - reflexivity.
  - reflexivity.
Defined.

(** ** [PWR_UP] is left by reset only *)

(** C6.  From a state in [PWR_UP], any number of ticks with the reset
    input low leaves the state in [PWR_UP] with outputs (false, false)
    and the settle counter at rest; a tick leaves [PWR_UP] exactly when
    its reset input is high. *)
Theorem powered_up_is_stable
    (s0 : Sequencer) (ext : nat -> bool) (n : nat) (r : bool) :
  fsm s0 = PWR_UP -> (forall k, ext k = false) ->
  fsm (run_from s0 ext n) = PWR_UP /\
  outputs_at s0 ext n = mkControlOutputs false false /\
  SettleCounter (run_from s0 ext (S n)) = 0 /\
  (fsm (fst (onTick r s0)) = RST <-> r = true).
Proof.
  intros H0 Hq. pose proof (run_from_PWR_UP s0 ext n H0 Hq) as Hn.
  split; [exact Hn | split; [| split]].
  - destruct n as [| n].
    + exact (outputs_PWR_UP s0 H0).
    + rewrite outputs_at_S. exact (outputs_PWR_UP _ Hn).
  - rewrite run_from_S, Hq.
    destruct (run_from s0 ext n) as [st c]. cbn [fsm] in Hn. subst st.
    rewrite sync_PWR_UP. reflexivity.
  - cbn [onTick fst]. destruct r.
    + rewrite sync_reset. split; reflexivity.
    + rewrite (sync_keeps_PWR_UP s0 H0). split; discriminate.
Qed.

Lemma powered_up_is_stable_witness :
  fsm (run_from (mkSequencer PWR_UP 0) (fun _ => false) 5) = PWR_UP /\
  outputs_at (mkSequencer PWR_UP 0) (fun _ => false) 5 =
    mkControlOutputs false false /\
  SettleCounter (run_from (mkSequencer PWR_UP 0) (fun _ => false) 6) = 0 /\
  (fsm (fst (onTick true (mkSequencer PWR_UP 0))) = RST <-> true = true).
Proof.
  exact (powered_up_is_stable (mkSequencer PWR_UP 0) (fun _ => false) 5 true
           eq_refl (fun _ => eq_refl)).
Defined.

(** ** Determinism *)

(** One evaluation of the combinatorial statements, signal by signal. *)
Lemma comb_pass_at (e : Design.Env) (s : Design.Signal) :
  Design.comb_pass e s =
  match s with
  | Design.done => if e Design.count =? 0 then 1 else 0
  | Design.wait => if e Design.state =? 1 then 0 else 1
  | Design.self_si_cpc_reset_n | Design.self_si_cluster_pwr_on_n =>
      if e Design.state =? 1 then 1 else 0
  | Design.next_state =>
      if e Design.state =? 1 then Migen.truncate 1 (e Design.state)
      else if e Design.done =? 0 then Migen.truncate 1 (e Design.state)
           else 1
  | Design.fsm_reset => 0
  | Design.i_si_reset_n =>
      Migen.truncate 1
        (Z.land (Migen.truncate 1 (Z.lnot (e Design.sys_rst)))
                (Migen.truncate 1 (Z.lnot (e Design.self_reset))))
  | Design.i_si_cm_int => Migen.truncate 7 (e Design.self_interrupt)
  | _ => e s
  end.
Proof.
  unfold Design.comb_pass, Fhdl.comb_pass.
  destruct (e Design.state =? 1) eqn:H1.
  - assert (H0 : (e Design.state =? 0) = false)
      by (apply Z.eqb_eq in H1; apply Z.eqb_neq; lia).
    destruct s; cbn; rewrite ?H0, ?H1; cbn; rewrite ?H1; try reflexivity.
    all: destruct (e Design.count =? 0); reflexivity.
  - destruct (e Design.state =? 0) eqn:H0;
      destruct s; cbn; rewrite ?H0, ?H1; cbn; rewrite ?H0, ?H1; cbn;
      try reflexivity.
    all: try (destruct (e Design.done =? 0); cbn; rewrite ?H1; reflexivity).
    all: try (destruct (e Design.count =? 0); cbn; rewrite ?H1; reflexivity).
    all: destruct (e Design.count =? 0); destruct (e Design.done =? 0);
      cbn; rewrite ?H1; reflexivity.
Qed.

Lemma settle_unfold (e : Design.Env) :
  Design.settle e = Design.comb_pass (Design.comb_pass (Design.comb_pass e)).
Proof. reflexivity. Qed.

(** The settled combinatorial values are fixed by the registers and the
    inputs; what the combinatorial signals held before plays no part. *)
Lemma settle_at (e : Design.Env) (s : Design.Signal) :
  Design.settle e s =
  match s with
  | Design.done => if e Design.count =? 0 then 1 else 0
  | Design.wait => if e Design.state =? 1 then 0 else 1
  | Design.self_si_cpc_reset_n | Design.self_si_cluster_pwr_on_n =>
      if e Design.state =? 1 then 1 else 0
  | Design.next_state =>
      if e Design.state =? 1 then Migen.truncate 1 (e Design.state)
      else if e Design.count =? 0 then 1
           else Migen.truncate 1 (e Design.state)
  | Design.fsm_reset => 0
  | Design.i_si_reset_n =>
      Migen.truncate 1
        (Z.land (Migen.truncate 1 (Z.lnot (e Design.sys_rst)))
                (Migen.truncate 1 (Z.lnot (e Design.self_reset))))
  | Design.i_si_cm_int => Migen.truncate 7 (e Design.self_interrupt)
  | _ => e s
  end.
Proof.
  rewrite settle_unfold.
  destruct s; rewrite comb_pass_at; cbv iota;
    rewrite ?(comb_pass_at (Design.comb_pass e)); cbv iota;
    rewrite ?(comb_pass_at e); cbv iota; try reflexivity.
  destruct (e Design.state =? 1); [reflexivity |].
  destruct (e Design.count =? 0); reflexivity.
Qed.

(** Three evaluations are enough: one more changes nothing. *)
Lemma settle_stable (e : Design.Env) (s : Design.Signal) :
  Design.comb_pass (Design.settle e) s = Design.settle e s.
Proof.
  rewrite comb_pass_at, !settle_at. destruct s; try reflexivity.
  destruct (e Design.state =? 1); [reflexivity |].
  destruct (e Design.count =? 0); reflexivity.
Qed.

(** The registers after a clock edge. *)
Lemma clock_at (e : Design.Env) :
  Design.clock e Design.state =
    (if e Design.sys_rst =? 0
     then Migen.truncate 1
            (if e Design.state =? 1 then Migen.truncate 1 (e Design.state)
             else if e Design.count =? 0 then 1
                  else Migen.truncate 1 (e Design.state))
     else 0) /\
  Design.clock e Design.count =
    (if e Design.sys_rst =? 0
     then if e Design.state =? 1 then 128
          else if e Design.count =? 0 then e Design.count
               else Migen.truncate 8 (e Design.count - 1)
     else 128).
Proof.
  unfold Design.clock, Fhdl.clock.
  change (Fhdl.settle Design.Signal Design.Signal_eq_dec Design.nbits
            Design.reset Design.comb Design.is_comb Design.depth e)
    with (Design.settle e).
  pose proof (settle_at e Design.sys_rst) as Hr.
  pose proof (settle_at e Design.wait) as Hw.
  pose proof (settle_at e Design.done) as Hd.
  pose proof (settle_at e Design.count) as Hc.
  pose proof (settle_at e Design.next_state) as Hn.
  pose proof (settle_at e Design.fsm_reset) as Hf.
  cbv iota in *.
  set (s := Design.settle e) in *. clearbody s.
  cbv zeta. rewrite Hr.
  destruct (e Design.sys_rst =? 0); [| split; reflexivity].
  cbn. rewrite Hw, Hd, Hc, Hn, Hf.
  destruct (e Design.state =? 1); destruct (e Design.count =? 0);
    cbn; rewrite ?Hc; split; reflexivity.
Qed.

(** The statements, run for one clock edge, do what [sync] says. *)
Lemma clock_refines (e : Design.Env) :
  0 <= e Design.state < 2 ->
  Design.registers (Design.clock e) =
  i6500.sync (negb (e Design.sys_rst =? 0)) (Design.registers e).
Proof.
  intros Hs. unfold Design.registers.
  destruct (clock_at e) as [-> ->].
  destruct (e Design.sys_rst =? 0); [| reflexivity].
  cbn [negb].
  unfold i6500.sync, next_state, trst_timer_done, trst_timer_wait, fsm_reset,
    WaitTimer.sync, WaitTimer.done.
  cbn [fsm trst_timer_count Design.encoding].
  assert (e Design.state = 0 \/ e Design.state = 1) as [E | E] by lia;
    rewrite E; cbn.
  - destruct (e Design.count =? 0); reflexivity.
  - reflexivity.
Qed.

(** The settled pins are what [outputs] says of the registers. *)
Lemma pins_refine (e : Design.Env) :
  0 <= e Design.state < 2 ->
  Design.pins (Design.settle e) = outputs (Design.registers e).
Proof.
  intros Hs. unfold Design.pins, outputs, si_cpc_reset_n, si_cluster_pwr_on_n,
    Design.registers.
  rewrite !settle_at. cbn [fsm Design.encoding].
  assert (e Design.state = 0 \/ e Design.state = 1) as [E | E] by lia;
    rewrite E; reflexivity.
Qed.

Lemma clock_state_range (e : Design.Env) :
  0 <= Design.clock e Design.state < 2.
Proof.
  destruct (clock_at e) as [-> _].
  destruct (e Design.sys_rst =? 0); [| lia].
  unfold Migen.truncate. apply Z.mod_pos_bound. reflexivity.
Qed.

Lemma run_design_agree (e1 e2 : Design.Env) (in1 in2 : nat -> Design.Env)
    (n : nat) :
  e1 Design.state = e2 Design.state ->
  e1 Design.count = e2 Design.count ->
  (forall k, (1 <= k <= n)%nat -> in1 k Design.sys_rst = in2 k Design.sys_rst) ->
  Design.run e1 in1 n Design.state = Design.run e2 in2 n Design.state /\
  Design.run e1 in1 n Design.count = Design.run e2 in2 n Design.count.
Proof.
  intros Hs Hc. induction n as [| n IH]; intros Hin.
  - split; assumption.
  - destruct IH as [IHs IHc]; [intros; apply Hin; lia |].
    cbn [Design.run].
    destruct (clock_at (Design.drive (in1 (S n)) (Design.run e1 in1 n)))
      as [-> ->].
    destruct (clock_at (Design.drive (in2 (S n)) (Design.run e2 in2 n)))
      as [-> ->].
    unfold Design.drive. cbn [Design.is_input].
    rewrite IHs, IHc, (Hin (S n)) by lia. split; reflexivity.
Qed.

(** C8.  The tick is a function of the registers and of the reset input
    alone.  Take any two valuations of all the signals of the design
    that agree on [state], on [count] and on the system reset, and let
    them differ at will on [self.reset], on the interrupt lines, on the
    undriven reset input of [fsm] and on what the combinatorial signals
    held before.  After a clock edge the registers are the same, and so
    are the two pins, whatever the inputs become after the edge; the
    result is the one of [onTick].  Along two runs whose inputs agree on
    the system reset up to tick [n], the registers after tick [n] are
    the same. *)
Theorem tick_depends_on_registers_and_reset
    (e1 e2 next1 next2 : Design.Env) (in1 in2 : nat -> Design.Env)
    (n : nat) :
  e1 Design.sys_rst = e2 Design.sys_rst ->
  e1 Design.state = e2 Design.state ->
  e1 Design.count = e2 Design.count ->
  (forall k, (1 <= k <= n)%nat -> in1 k Design.sys_rst = in2 k Design.sys_rst) ->
  Design.registers (Design.clock e1) = Design.registers (Design.clock e2) /\
  Design.pins (Design.settle (Design.drive next1 (Design.clock e1))) =
  Design.pins (Design.settle (Design.drive next2 (Design.clock e2))) /\
  (0 <= e1 Design.state < 2 ->
   onTick (negb (e1 Design.sys_rst =? 0)) (Design.registers e1) =
   (Design.registers (Design.clock e1),
    Design.pins (Design.settle (Design.drive next1 (Design.clock e1))))) /\
  Design.registers (Design.run e1 in1 n) =
  Design.registers (Design.run e2 in2 n).
Proof.
  intros Hr Hs Hc Hin.
  assert (Hclk : Design.clock e1 Design.state = Design.clock e2 Design.state /\
                 Design.clock e1 Design.count = Design.clock e2 Design.count).
  { destruct (clock_at e1) as [-> ->]. destruct (clock_at e2) as [-> ->].
    rewrite Hr, Hs, Hc. split; reflexivity. }
  destruct Hclk as [Hs' Hc'].
  split; [| split; [| split]].
  - unfold Design.registers. rewrite Hs', Hc'. reflexivity.
  - unfold Design.pins. rewrite !settle_at.
    unfold Design.drive. cbn [Design.is_input]. rewrite Hs'. reflexivity.
  - intros Hrange. unfold onTick. cbv zeta.
    rewrite <- (clock_refines e1 Hrange). f_equal.
    rewrite pins_refine.
    + unfold Design.registers, Design.drive. cbn [Design.is_input].
      reflexivity.
    + unfold Design.drive. cbn [Design.is_input]. apply clock_state_range.
  - destruct (run_design_agree e1 e2 in1 in2 n Hs Hc Hin) as [Hrs Hrc].
    unfold Design.registers. rewrite Hrs, Hrc. reflexivity.
Qed.

Lemma tick_depends_on_registers_and_reset_witness :
  let e1 : Design.Env := Design.reset in
  let e2 : Design.Env :=
    fun s =>
      match s with
      | Design.self_reset | Design.fsm_reset => 1
      | Design.self_interrupt => 5
      | Design.done | Design.next_state => 1
      | _ => Design.reset s
      end in
  let next1 : Design.Env := Design.reset in
  let next2 : Design.Env := fun _ => 1 in
  let in1 : nat -> Design.Env := fun _ => Design.reset in
  let in2 : nat -> Design.Env :=
    fun k s =>
      match s with
      | Design.sys_rst => 0
      | _ => Z.of_nat k
      end in
  Design.registers (Design.clock e1) = Design.registers (Design.clock e2) /\
  Design.pins (Design.settle (Design.drive next1 (Design.clock e1))) =
  Design.pins (Design.settle (Design.drive next2 (Design.clock e2))) /\
  (0 <= e1 Design.state < 2 ->
   onTick (negb (e1 Design.sys_rst =? 0)) (Design.registers e1) =
   (Design.registers (Design.clock e1),
    Design.pins (Design.settle (Design.drive next1 (Design.clock e1))))) /\
  Design.registers (Design.run e1 in1 3) =
  Design.registers (Design.run e2 in2 3).
Proof.
  intros e1 e2 next1 next2 in1 in2.
  apply (tick_depends_on_registers_and_reset e1 e2 next1 next2 in1 in2 3).
  - reflexivity.
  - reflexivity.
  - reflexivity.
  - intros k _. reflexivity.
Defined.

(** The CPU's own reset line, by contrast, does follow [self.reset]. *)
Example si_reset_n_follows_self_reset :
  Design.settle Design.reset Design.i_si_reset_n = 1 /\
  Design.settle
    (fun s => match s with
              | Design.self_reset => 1
              | _ => Design.reset s
              end) Design.i_si_reset_n = 0.
Proof. split; reflexivity. Qed.

(** The statements agree with [onTick] along the settling period. *)
Example design_run_129 :
  Design.registers (Design.run Design.reset (fun _ => Design.reset) 128) =
    mkSequencer RST 0 /\
  Design.registers (Design.run Design.reset (fun _ => Design.reset) 129) =
    mkSequencer PWR_UP 0 /\
  Design.registers (Design.run Design.reset (fun _ => Design.reset) 130) =
    mkSequencer PWR_UP 128.
Proof. vm_compute. repeat split. Qed.

(** ** BIOS address maps *)

(** C10.  For every address, the uncached BIOS address is the cached one
    plus 0x2000_0000, for both wrappers: the i6500 bases are
    0xffff_ffff_8000_0000 (cached) and 0xffff_ffff_a000_0000 (uncached),
    the MIPSFPGA bases 0x8000_0000 and 0xa000_0000. *)
Theorem bios_map_windows (addr : Z) :
  (i6500.bios_map addr true = addr + 0xffff_ffff_8000_0000 /\
   i6500.bios_map addr false = addr + 0xffff_ffff_a000_0000 /\
   i6500.bios_map addr false = i6500.bios_map addr true + 0x2000_0000) /\
  (MIPSFPGA.bios_map addr true = addr + 0x8000_0000 /\
   MIPSFPGA.bios_map addr false = addr + 0xa000_0000 /\
   MIPSFPGA.bios_map addr false = MIPSFPGA.bios_map addr true + 0x2000_0000).
Proof.
  unfold i6500.bios_map, MIPSFPGA.bios_map. repeat split; lia.
Qed.

(** * Further properties of the sequencer *)

(** The counter register is 8 bits wide; from any non-zero value it
    holds, one waiting tick takes one off. *)
Lemma timer_counts_down_8bit (c : Z) :
  1 <= c < 256 -> WaitTimer.sync trst_time true c = c - 1.
Proof.
  intros Hc. unfold WaitTimer.sync, WaitTimer.done.
  destruct (Z.eqb_spec c 0) as [E | _]; [lia |]. cbn [negb].
  unfold Migen.truncate. rewrite trst_timer_width.
  apply Z.mod_small. lia.
Qed.

Lemma sync_RST_counting_8bit (c : Z) :
  1 <= c < 256 ->
  sync false (mkSequencer RST c) = mkSequencer RST (c - 1).
Proof.
  intros Hc. unfold sync, next_state, trst_timer_done, trst_timer_wait.
  cbn [fsm trst_timer_count fsm_reset].
  rewrite timer_counts_down_8bit by exact Hc.
  unfold WaitTimer.done.
  destruct (Z.eqb_spec c 0) as [E | _]; [lia | reflexivity].
Qed.

Lemma run_from_RST_counting (c : Z) (ext : nat -> bool) (n : nat) :
  0 <= c < 256 -> (forall k, ext k = false) -> Z.of_nat n <= c ->
  run_from (mkSequencer RST c) ext n = mkSequencer RST (c - Z.of_nat n).
Proof.
  intros Hc Hq. induction n as [| n IH]; intros Hn.
  - cbn [run_from]. f_equal. lia.
  - rewrite run_from_S, Hq, IH by lia.
    rewrite sync_RST_counting_8bit by lia. f_equal. lia.
Qed.

Lemma run_from_RST_done (c : Z) (ext : nat -> bool) :
  0 <= c < 256 -> (forall k, ext k = false) ->
  run_from (mkSequencer RST c) ext (S (Z.to_nat c)) = mkSequencer PWR_UP 0.
Proof.
  intros Hc Hq. rewrite run_from_S, Hq.
  rewrite run_from_RST_counting by (assumption || lia).
  replace (c - Z.of_nat (Z.to_nat c)) with 0 by lia.
  apply sync_RST_done.
Qed.

Lemma reachable_run_from (s0 : Sequencer) (ext : nat -> bool) (n : nat) :
  reachable s0 -> reachable (run_from s0 ext n).
Proof.
  intros H0. induction n as [| n IH].
  - exact H0.
  - cbn [run_from]. apply reachable_tick, IH.
Qed.

Lemma run_from_RST_late (c : Z) (ext : nat -> bool) (n : nat) :
  0 <= c < 256 -> (forall k, ext k = false) -> c + 1 <= Z.of_nat n ->
  fsm (run_from (mkSequencer RST c) ext n) = PWR_UP.
Proof.
  intros Hc Hq Hn.
  replace n with ((n - S (Z.to_nat c)) + S (Z.to_nat c))%nat by lia.
  rewrite run_from_add. apply run_from_PWR_UP.
  - rewrite run_from_RST_done by assumption. reflexivity.
  - intros k. apply Hq.
Qed.

(** X1.  From [RST] with the counter at [c] (any value of the 8-bit
    register) and the reset input low, the sequencer is in [PWR_UP]
    after [n] ticks exactly when [n] is at least [c + 1]: [c] ticks to
    run the counter down and one for the registered transition. *)
Theorem release_time (c : Z) (ext : nat -> bool) (n : nat) :
  0 <= c < 256 -> (forall k, ext k = false) ->
  (fsm (run_from (mkSequencer RST c) ext n) = PWR_UP <-> c + 1 <= Z.of_nat n).
Proof.
  intros Hc Hq. split.
  - intros HP. destruct (Z.le_gt_cases (c + 1) (Z.of_nat n)) as [H | H];
      [exact H |].
    rewrite run_from_RST_counting in HP by (assumption || lia).
    discriminate.
  - apply run_from_RST_late; assumption.
Qed.

Lemma release_time_witness :
  fsm (run_from (mkSequencer RST 255) (fun _ => false) 256) = PWR_UP <->
  255 + 1 <= Z.of_nat 256.
Proof.
  apply (release_time 255 (fun _ => false) 256); [lia | reflexivity].
Defined.

(** X2.  A tick with the reset input high restarts the settling period
    from any state: if tick [m + 1] is a reset tick and the [n] ticks
    after it have the reset input low, then the settle counter shows [n]
    while [n <= 128] and the state is [PWR_UP] exactly when
    [n >= 129]. *)
Theorem reset_restarts_settling
    (s0 : Sequencer) (ext : nat -> bool) (m n : nat) :
  ext (S m) = true ->
  (forall k, (S m < k <= n + S m)%nat -> ext k = false) ->
  ((n <= 128)%nat ->
     SettleCounter (run_from s0 ext (n + S m)) = Z.of_nat n) /\
  (fsm (run_from s0 ext (n + S m)) = PWR_UP <-> (129 <= n)%nat).
Proof.
  intros Hr Hq.
  assert (E : run_from s0 ext (n + S m) = run (fun _ => false) n).
  { rewrite run_from_add, run_from_S, Hr, sync_reset.
    apply run_from_agree. intros k Hk. apply Hq. lia. }
  rewrite E. split.
  - intros Hn. rewrite run_counting by (reflexivity || lia).
    unfold SettleCounter, trst_time. cbn [trst_timer_count]. lia.
  - split.
    + intros HP. destruct (Nat.le_gt_cases 129 n) as [H | H]; [exact H |].
      rewrite run_counting in HP by (reflexivity || lia). discriminate.
    + intros Hn. apply run_late; [reflexivity | exact Hn].
Qed.

Lemma reset_restarts_settling_witness :
  ((128 <= 128)%nat ->
     SettleCounter (run_from (mkSequencer PWR_UP 128)
                      (fun k => Nat.eqb k 5) (128 + 5)) = Z.of_nat 128) /\
  (fsm (run_from (mkSequencer PWR_UP 128)
          (fun k => Nat.eqb k 5) (128 + 5)) = PWR_UP <-> (129 <= 128)%nat).
Proof.
  apply (reset_restarts_settling
           (mkSequencer PWR_UP 128) (fun k => Nat.eqb k 5) 4 128).
  - reflexivity.
  - intros k Hk. apply Nat.eqb_neq. lia.
Defined.

(** X3.  The reachable states are exactly: [RST] with the counter
    anywhere from 0 to 128, and [PWR_UP] with the counter at 0 (the
    tick of the transition) or at 128 (reloaded). *)
Theorem reachable_states (s : Sequencer) :
  reachable s <->
  (fsm s = RST /\ 0 <= trst_timer_count s <= 128) \/
  (fsm s = PWR_UP /\ (trst_timer_count s = 0 \/ trst_timer_count s = 128)).
Proof.
  split.
  - induction 1 as [| ext s _ IH].
    + left. split; [reflexivity |]. cbn.
      unfold WaitTimer.count_reset, trst_time. lia.
    + cbn [onTick fst]. destruct ext.
      * rewrite sync_reset. left. split; [reflexivity |]. cbn.
        unfold WaitTimer.count_reset, trst_time. lia.
      * destruct s as [st c]. cbn [fsm trst_timer_count] in IH.
        destruct IH as [[-> Hc] | [-> Hc]].
        -- destruct (Z.eq_dec c 0) as [-> | N].
           ++ rewrite sync_RST_done. right. split; [reflexivity | now left].
           ++ rewrite sync_RST_counting by lia. left.
              split; [reflexivity |]. cbn [trst_timer_count]. lia.
        -- rewrite sync_PWR_UP. right. split; [reflexivity | now right].
  - destruct s as [st c]. cbn [fsm trst_timer_count].
    intros [[-> Hc] | [-> [-> | ->]]].
    + replace (mkSequencer RST c)
        with (run (fun _ => false) (Z.to_nat (128 - c))).
      * apply reachable_run_from, reachable_reset.
      * rewrite run_counting by (reflexivity || lia). f_equal. lia.
    + rewrite <- (run_129 (fun _ => false)) by reflexivity.
      apply reachable_run_from, reachable_reset.
    + change (mkSequencer PWR_UP 128)
        with (fst (onTick false (mkSequencer PWR_UP 0))).
      apply reachable_tick.
      rewrite <- (run_129 (fun _ => false)) by reflexivity.
      apply reachable_run_from, reachable_reset.
Qed.

(** X4.  From every reachable state, 129 ticks with the reset input low
    are enough: after them, and after any longer run without reset, the
    state is [PWR_UP] and both outputs are released. *)
Theorem settles_within_129
    (s : Sequencer) (ext : nat -> bool) (n : nat) :
  reachable s -> (forall k, ext k = false) -> (129 <= n)%nat ->
  fsm (run_from s ext n) = PWR_UP /\
  outputs_at s ext n = mkControlOutputs false false.
Proof.
  intros Hs Hq Hn.
  assert (HP : fsm (run_from s ext n) = PWR_UP).
  { pose proof (reachable_count s Hs) as Hc.
    destruct s as [[|] c]; cbn [trst_timer_count] in Hc.
    - apply run_from_RST_late; (assumption || lia).
    - apply run_from_PWR_UP; [reflexivity | exact Hq]. }
  split; [exact HP |].
  destruct n as [| n]; [lia |].
  rewrite outputs_at_S. apply outputs_PWR_UP, HP.
Qed.

Lemma settles_within_129_witness :
  fsm (run_from reset_state (fun _ => false) 129) = PWR_UP /\
  outputs_at reset_state (fun _ => false) 129 = mkControlOutputs false false.
Proof.
  apply (settles_within_129 reset_state (fun _ => false) 129
           reachable_reset (fun _ => eq_refl)).
  lia.
Defined.

(** * Further properties of the address maps *)

(** X5.  On the 512 MiB of physical addresses below 0x2000_0000 each
    BIOS map is injective in both arguments: two addresses, cached or
    not, have the same image only when they are the same address with
    the same cacheability; the cached and the uncached window do not
    meet. *)
Theorem bios_map_injective (a b : Z) (ca cb : bool) :
  0 <= a < 0x2000_0000 -> 0 <= b < 0x2000_0000 ->
  (i6500.bios_map a ca = i6500.bios_map b cb -> a = b /\ ca = cb) /\
  (MIPSFPGA.bios_map a ca = MIPSFPGA.bios_map b cb -> a = b /\ ca = cb).
Proof.
  intros Ha Hb. unfold i6500.bios_map, MIPSFPGA.bios_map.
  destruct ca, cb; split; intros H; split;
    solve [reflexivity | lia | exfalso; lia].
Qed.

Lemma bios_map_injective_witness :
  (i6500.bios_map 0x1fc0_0000 true = i6500.bios_map 0x1fc0_0000 true ->
   0x1fc0_0000 = 0x1fc0_0000 /\ true = true) /\
  (MIPSFPGA.bios_map 0x1fc0_0000 true = MIPSFPGA.bios_map 0x1fc0_0000 true ->
   0x1fc0_0000 = 0x1fc0_0000 /\ true = true).
Proof.
  apply (bios_map_injective 0x1fc0_0000 0x1fc0_0000 true true); lia.
Defined.

(** X6.  For a physical address below 0x2000_0000 the MIPSFPGA image is
    a 32-bit address in kseg0 (cached) or kseg1 (uncached), the i6500
    image is a 64-bit address, and the i6500 image is the MIPSFPGA image
    with the upper 32 bits set, its sign extension. *)
Theorem bios_map_segments (addr : Z) (cached : bool) :
  0 <= addr < 0x2000_0000 ->
  (if cached
   then 0x8000_0000 <= MIPSFPGA.bios_map addr cached < 0xa000_0000
   else 0xa000_0000 <= MIPSFPGA.bios_map addr cached < 0xc000_0000) /\
  2 ^ 63 <= i6500.bios_map addr cached < 2 ^ 64 /\
  i6500.bios_map addr cached =
  MIPSFPGA.bios_map addr cached + (2 ^ 64 - 2 ^ 32).
Proof.
  intros Ha. unfold i6500.bios_map, MIPSFPGA.bios_map.
  destruct cached; repeat split; lia.
Qed.

Lemma bios_map_segments_witness :
  0xa000_0000 <= MIPSFPGA.bios_map 0x1fc0_0000 false < 0xc000_0000 /\
  2 ^ 63 <= i6500.bios_map 0x1fc0_0000 false < 2 ^ 64 /\
  i6500.bios_map 0x1fc0_0000 false =
  MIPSFPGA.bios_map 0x1fc0_0000 false + (2 ^ 64 - 2 ^ 32).
Proof.
  apply (bios_map_segments 0x1fc0_0000 false). lia.
Defined.

(** X7.  In both wrappers every origin of [mem_map] is a physical
    address below 0x2000_0000, and [csr] is the one region whose origin
    lies inside a region of the wrapper's [io_regions]. *)
Theorem mem_map_regions (name : string) (origin : Z) (io : list (Z * Z)) :
  (In (name, origin) i6500.mem_map /\ io = i6500.io_regions) \/
  (In (name, origin) MIPSFPGA.mem_map /\ io = MIPSFPGA.io_regions) ->
  0 <= origin < 0x2000_0000 /\
  ((exists o l, In (o, l) io /\ o <= origin < o + l) <->
   name = "csr"%string).
Proof.
  assert (Hio : forall o l : Z,
             In (o, l) [(0x1000_0000, 0x0c00_0000)] ->
             o = 0x1000_0000 /\ l = 0x0c00_0000).
  { intros o l [E | []]. inversion E. split; reflexivity. }
  assert (Hin : In (0x1000_0000, 0x0c00_0000) [(0x1000_0000, 0x0c00_0000)])
    by (left; reflexivity).
  unfold i6500.mem_map, MIPSFPGA.mem_map, i6500.io_regions,
    MIPSFPGA.io_regions.
  cbn [In].
  intros [[H ->] | [H ->]];
    repeat (destruct H as [H | H]; [inversion H; subst; clear H |]);
    try contradiction;
    (split; [lia |]);
    (split;
     [ intros (o & l & Ho & Hr); destruct (Hio o l Ho); subst;
       solve [reflexivity | exfalso; lia]
     | intros E;
       first [ discriminate E
             | exists 0x1000_0000, 0x0c00_0000; split; [exact Hin | lia] ] ]).
Qed.

Lemma mem_map_regions_witness :
  0 <= 0x1800_0000 < 0x2000_0000 /\
  ((exists o l, In (o, l) MIPSFPGA.io_regions /\
                o <= 0x1800_0000 < o + l) <->
   "csr"%string = "csr"%string).
Proof.
  apply (mem_map_regions "csr" 0x1800_0000 MIPSFPGA.io_regions).
  right. split; [| reflexivity]. right. left. reflexivity.
Defined.

(** * The file list reader *)

(** ** String facts *)

Lemma startswith_app (p r : Py.str) : Py.startswith p (p ++ r) = true.
Proof.
  induction p as [| a p IH]; [reflexivity |].
  cbn. rewrite Ascii.eqb_refl. exact IH.
Qed.

Lemma startswith_inv (p s : Py.str) :
  Py.startswith p s = true -> exists r, s = p ++ r.
Proof.
  revert s. induction p as [| a p IH]; intros s H.
  - exists s. reflexivity.
  - destruct s as [| b s]; [discriminate |].
    cbn in H. apply andb_true_iff in H. destruct H as [Hab Hps].
    apply Ascii.eqb_eq in Hab. subst b.
    destruct (IH s Hps) as [r ->]. exists r. reflexivity.
Qed.

Lemma contains_intro (sub a b : Py.str) :
  Py.contains sub (a ++ sub ++ b) = true.
Proof.
  induction a as [| x a IH].
  - cbn [app]. destruct (sub ++ b) eqn:E; cbn [Py.contains];
      rewrite <- E, startswith_app; reflexivity.
  - cbn [app Py.contains]. rewrite IH. apply orb_true_r.
Qed.

Lemma contains_inv (sub s : Py.str) :
  Py.contains sub s = true -> exists a b, s = a ++ sub ++ b.
Proof.
  induction s as [| x s IH]; cbn [Py.contains]; intros H.
  - rewrite orb_false_r in H. destruct (startswith_inv _ _ H) as [r ->].
    exists [], r. reflexivity.
  - apply orb_true_iff in H. destruct H as [H | H].
    + destruct (startswith_inv _ _ H) as [r ->]. exists [], r. reflexivity.
    + destruct (IH H) as (a & b & ->). exists (x :: a), b. reflexivity.
Qed.

(** What holds of a string holds of every string it is a prefix of. *)
Lemma contains_prefix (sub s t : Py.str) :
  Py.contains sub (s ++ t) = false -> Py.contains sub s = false.
Proof.
  intros H. destruct (Py.contains sub s) eqn:E; [| reflexivity].
  destruct (contains_inv _ _ E) as (a & b & ->).
  rewrite <- !app_assoc, contains_intro in H. discriminate.
Qed.

Lemma strip_prefix_app (p r : Py.str) : strip_prefix p (p ++ r) = Some r.
Proof.
  induction p as [| a p IH]; [reflexivity |].
  cbn. rewrite Ascii.eqb_refl. exact IH.
Qed.

Lemma strip_prefix_inv (p s r : Py.str) :
  strip_prefix p s = Some r -> s = p ++ r.
Proof.
  revert s. induction p as [| a p IH]; intros s H.
  - cbn in H. injection H as ->. reflexivity.
  - destruct s as [| b s]; [discriminate |].
    cbn in H. destruct (Ascii.eqb_spec a b) as [-> | _]; [| discriminate].
    rewrite (IH s H). reflexivity.
Qed.

Lemma dot_plus_split (s : Py.str) :
  exists post,
    s = dot_plus s ++ post /\
    (post = [] \/ exists t, post = "010"%char :: t).
Proof.
  induction s as [| c s (post & E & Hp)].
  - exists []. split; [reflexivity | now left].
  - cbn [dot_plus]. destruct (Ascii.eqb_spec c "010"%char) as [-> | N].
    + exists ("010"%char :: s). split; [reflexivity |]. right. now exists s.
    + exists post. split; [cbn [app]; f_equal; exact E | exact Hp].
Qed.

Lemma dot_plus_no_newline (s : Py.str) : ~ In "010"%char (dot_plus s).
Proof.
  induction s as [| c s IH]; [intros [] |].
  cbn [dot_plus]. destruct (Ascii.eqb_spec c "010"%char) as [-> | N].
  - intros [].
  - intros [E | H]; [exact (N E) | exact (IH H)].
Qed.

Lemma dot_plus_cons (c : ascii) (s : Py.str) :
  c <> "010"%char -> dot_plus (c :: s) = c :: dot_plus s.
Proof.
  intros N. cbn [dot_plus].
  destruct (Ascii.eqb_spec c "010"%char) as [E | _]; [contradiction | reflexivity].
Qed.

(** ** The pattern at one position *)

Lemma match_at_Some (s g : Py.str) :
  match_at s = Some g ->
  g <> [] /\ ~ In "010"%char g /\
  exists post,
    s = Py.lit "$MIPS_HOME/" ++ g ++ post /\
    (post = [] \/ exists t, post = "010"%char :: t).
Proof.
  unfold match_at.
  destruct (strip_prefix (Py.lit "$MIPS_HOME/") s) as [rest |] eqn:E;
    [| discriminate].
  apply strip_prefix_inv in E.
  pose proof (dot_plus_no_newline rest) as Hn.
  destruct (dot_plus_split rest) as (post & Er & Hp).
  destruct (dot_plus rest) as [| c d] eqn:D; [discriminate |].
  intros H. injection H as <-.
  split; [discriminate |]. split; [exact Hn |].
  exists post. split; [| exact Hp]. rewrite E. f_equal. exact Er.
Qed.

Lemma match_at_None (s : Py.str) (c : ascii) (b : Py.str) :
  match_at s = None -> s = Py.lit "$MIPS_HOME/" ++ c :: b ->
  c = "010"%char.
Proof.
  unfold match_at. intros H ->. rewrite strip_prefix_app in H.
  destruct (Ascii.eqb_spec c "010"%char) as [E | N]; [exact E |].
  rewrite dot_plus_cons in H by exact N. discriminate.
Qed.

Lemma match_at_nil : match_at [] = None.
Proof. reflexivity. Qed.

(** ** The search *)

Lemma re_search_unfold (s : Py.str) :
  re_search s =
  match match_at s with
  | Some g => Some g
  | None => match s with [] => None | _ :: t => re_search t end
  end.
Proof. destruct s; reflexivity. Qed.

(** X8.  When the search succeeds, group 1 is a non-empty text without
    newline that stands in the line right after an occurrence of
    [$MIPS_HOME/] and runs to the end of the line or to the next
    newline; that occurrence is the leftmost one followed by a character
    other than a newline. *)
Theorem re_search_Some (s g : Py.str) :
  re_search s = Some g ->
  g <> [] /\ ~ In "010"%char g /\
  exists pre post,
    s = pre ++ Py.lit "$MIPS_HOME/" ++ g ++ post /\
    (post = [] \/ exists t, post = "010"%char :: t) /\
    (forall a c b,
        s = a ++ Py.lit "$MIPS_HOME/" ++ c :: b -> c <> "010"%char ->
        (List.length pre <= List.length a)%nat).
Proof.
  induction s as [| x s IH]; rewrite re_search_unfold.
  - rewrite match_at_nil. discriminate.
  - destruct (match_at (x :: s)) as [g' |] eqn:M.
    + intros H. injection H as ->.
      destruct (match_at_Some _ _ M) as (Hg & Hn & post & E & Hp).
      split; [exact Hg |]. split; [exact Hn |].
      exists [], post. split; [exact E |]. split; [exact Hp |].
      intros. cbn. lia.
    + intros H. destruct (IH H) as (Hg & Hn & pre & post & E & Hp & Hleft).
      split; [exact Hg |]. split; [exact Hn |].
      exists (x :: pre), post. split; [cbn [app]; f_equal; exact E |].
      split; [exact Hp |].
      intros a c b Ea Hc. destruct a as [| y a].
      * exfalso. apply Hc. exact (match_at_None _ c b M Ea).
      * cbn [app] in Ea. injection Ea as _ Ea.
        cbn [List.length]. apply le_n_S. exact (Hleft a c b Ea Hc).
Qed.

Lemma re_search_Some_witness :
  Py.lit "a.v" <> [] /\ ~ In "010"%char (Py.lit "a.v") /\
  exists pre post,
    Py.lit "  $MIPS_HOME/a.v" = pre ++ Py.lit "$MIPS_HOME/" ++ Py.lit "a.v" ++ post /\
    (post = [] \/ exists t, post = "010"%char :: t) /\
    (forall a c b,
        Py.lit "  $MIPS_HOME/a.v" = a ++ Py.lit "$MIPS_HOME/" ++ c :: b ->
        c <> "010"%char -> (List.length pre <= List.length a)%nat).
Proof.
  apply (re_search_Some (Py.lit "  $MIPS_HOME/a.v") (Py.lit "a.v")).
  reflexivity.
Defined.

(** X9.  The search fails exactly on the lines in which every
    occurrence of [$MIPS_HOME/] is at the very end or is followed by a
    newline. *)
Theorem re_search_None (s : Py.str) :
  re_search s = None <->
  (forall a c b, s = a ++ Py.lit "$MIPS_HOME/" ++ c :: b -> c = "010"%char).
Proof.
  induction s as [| x s IH]; rewrite re_search_unfold.
  - rewrite match_at_nil. split; [| reflexivity].
    intros _ a c b E. destruct a; discriminate E.
  - destruct (match_at (x :: s)) as [g |] eqn:M.
    + split; [discriminate |]. intros H. exfalso.
      destruct (match_at_Some _ _ M) as (Hg & Hn & post & E & _).
      destruct g as [| c g]; [now apply Hg |].
      apply Hn. left.
      apply (H [] c (g ++ post)). exact E.
    + rewrite IH. split; intros H a c b E.
      * destruct a as [| y a].
        -- exact (match_at_None _ c b M E).
        -- cbn [app] in E. injection E as _ E. exact (H a c b E).
      * apply (H (x :: a) c b). cbn [app]. f_equal. exact E.
Qed.

Lemma re_search_no_prefix (s : Py.str) :
  Py.contains (Py.lit "$MIPS_HOME/") s = false -> re_search s = None.
Proof.
  intros H. apply re_search_None. intros a c b E. exfalso.
  rewrite E, contains_intro in H. discriminate.
Qed.

Lemma dot_plus_exact (g post : Py.str) :
  ~ In "010"%char g ->
  post = [] \/ (exists t, post = "010"%char :: t) ->
  dot_plus (g ++ post) = g.
Proof.
  intros Hn Hp. induction g as [| c g IH].
  - destruct Hp as [-> | [t ->]]; reflexivity.
  - cbn [app]. rewrite dot_plus_cons.
    + f_equal. apply IH. intros H. apply Hn. now right.
    + intros E. apply Hn. now left.
Qed.

(** A path behind the prefix is found again, whatever stands before the
    prefix as long as it has no dollar sign. *)
Lemma re_search_found (pre g post : Py.str) :
  ~ In "$"%char pre -> g <> [] -> ~ In "010"%char g ->
  post = [] \/ (exists t, post = "010"%char :: t) ->
  re_search (pre ++ Py.lit "$MIPS_HOME/" ++ g ++ post) = Some g.
Proof.
  intros Hd Hg Hn Hp. induction pre as [| x pre IH].
  - cbn [app]. rewrite re_search_unfold. unfold match_at.
    rewrite strip_prefix_app, dot_plus_exact by assumption.
    destruct g; [contradiction | reflexivity].
  - cbn [app]. rewrite re_search_unfold.
    assert (M : match_at (x :: pre ++ Py.lit "$MIPS_HOME/" ++ g ++ post) = None).
    { unfold match_at. change (Py.lit "$MIPS_HOME/")
        with ("$"%char :: Py.lit "MIPS_HOME/").
      cbn [strip_prefix].
      destruct (Ascii.eqb_spec "$"%char x) as [E | _]; [| reflexivity].
      exfalso. apply Hd. left. symmetry. exact E. }
    rewrite M. apply IH. intros H. apply Hd. now right.
Qed.

(** ** Stripping *)

Lemma lstrip_where_app_true (P : ascii -> bool) (w s : Py.str) :
  forallb P w = true ->
  Py.lstrip_where P (w ++ s) = Py.lstrip_where P s.
Proof.
  induction w as [| c w IH]; [reflexivity |].
  cbn [forallb app Py.lstrip_where]. intros H.
  apply andb_true_iff in H. destruct H as [-> Hw]. exact (IH Hw).
Qed.

Lemma forallb_weaken (P Q : ascii -> bool) (w : Py.str) :
  (forall c, P c = true -> Q c = true) ->
  forallb P w = true -> forallb Q w = true.
Proof.
  intros HPQ. rewrite !forallb_forall. intros H x Hx. apply HPQ, H, Hx.
Qed.

Lemma forallb_rev_true (P : ascii -> bool) (w : Py.str) :
  forallb P w = true -> forallb P (rev w) = true.
Proof.
  rewrite !forallb_forall. intros H x Hx. apply H, in_rev, Hx.
Qed.

Lemma rstrip_where_app_true (P : ascii -> bool) (s w : Py.str) :
  forallb P w = true ->
  Py.rstrip_where P (s ++ w) = Py.rstrip_where P s.
Proof.
  intros H. unfold Py.rstrip_where.
  rewrite rev_app_distr, lstrip_where_app_true by (apply forallb_rev_true, H).
  reflexivity.
Qed.

Lemma rstrip_where_snoc_false (P : ascii -> bool) (s : Py.str) (c : ascii) :
  P c = false -> Py.rstrip_where P (s ++ [c]) = s ++ [c].
Proof.
  intros H. unfold Py.rstrip_where.
  rewrite rev_app_distr. cbn [rev app Py.lstrip_where]. rewrite H.
  cbn [rev]. rewrite rev_involutive. reflexivity.
Qed.

(** A string that does not end in a character to strip is left alone. *)
Lemma rstrip_where_clean (P : ascii -> bool) (s : Py.str) :
  (forall r c, s = r ++ [c] -> P c = false) ->
  Py.rstrip_where P s = s.
Proof.
  intros H. destruct s as [| x s] using rev_ind; [reflexivity |].
  apply rstrip_where_snoc_false. exact (H s x eq_refl).
Qed.

(** The result is what is left of the string before a tail of stripped
    characters, and does not end in one. *)
Lemma rstrip_where_split (P : ascii -> bool) (s : Py.str) :
  exists w,
    s = Py.rstrip_where P s ++ w /\ forallb P w = true /\
    (forall r c, Py.rstrip_where P s = r ++ [c] -> P c = false).
Proof.
  induction s as [| x s IH] using rev_ind.
  - exists []. repeat split. intros r c E. destruct r; discriminate E.
  - destruct (P x) eqn:Px.
    + rewrite (rstrip_where_app_true P s [x]) by (cbn; rewrite Px; reflexivity).
      destruct IH as (w & E & Hw & Hl).
      exists (w ++ [x]). split; [rewrite app_assoc, <- E; reflexivity |].
      split; [| exact Hl].
      rewrite forallb_app, Hw. cbn. rewrite Px. reflexivity.
    + rewrite rstrip_where_snoc_false by exact Px.
      exists []. split; [rewrite app_nil_r; reflexivity |].
      split; [reflexivity |].
      intros r c E. apply app_inj_tail in E. destruct E as [_ <-]. exact Px.
Qed.

Lemma isspace_not_backslash (c : ascii) :
  Py.isspace c = true -> Ascii.eqb c "\"%char = false.
Proof.
  intros H. destruct (Ascii.eqb_spec c "\"%char) as [-> | _];
    [discriminate H | reflexivity].
Qed.

Lemma backslash_set (c : ascii) :
  existsb (Ascii.eqb c) (Py.lit "\") = Ascii.eqb c "\"%char.
Proof. cbn. apply orb_false_r. Qed.

(** The last character of [l ++ w], for [w] made of characters that
    satisfy [Q], fails [P] when the last of [l] does and [Q] excludes
    [P]. *)
Lemma last_of_app (P Q : ascii -> bool) (l w : Py.str) :
  (forall r c, l = r ++ [c] -> P c = false) ->
  forallb Q w = true -> (forall c, Q c = true -> P c = false) ->
  forall r c, l ++ w = r ++ [c] -> P c = false.
Proof.
  intros Hl Hw HQ r c E.
  destruct w as [| x w] using rev_ind.
  - rewrite app_nil_r in E. exact (Hl r c E).
  - rewrite app_assoc in E. apply app_inj_tail in E. destruct E as [_ <-].
    apply HQ. rewrite forallb_app in Hw.
    apply andb_true_iff in Hw. destruct Hw as [_ Hx].
    cbn in Hx. rewrite andb_true_r in Hx. exact Hx.
Qed.

Lemma strip_continuation_cuts (l w1 bs w2 : Py.str) :
  (forall r c, l = r ++ [c] ->
               Py.isspace c = false /\ Ascii.eqb c "\"%char = false) ->
  forallb Py.isspace w1 = true ->
  forallb (fun c => Ascii.eqb c "\"%char) bs = true ->
  forallb Py.isspace w2 = true ->
  strip_continuation (l ++ w1 ++ bs ++ w2) = l.
Proof.
  intros Hl H1 Hb H2. unfold strip_continuation, Py.rstrip, Py.rstrip_chars.
  assert (Hls : forall r c, l = r ++ [c] -> Py.isspace c = false)
    by (intros r c E; apply (Hl r c E)).
  assert (Hlb : forall r c, l = r ++ [c] ->
                            existsb (Ascii.eqb c) (Py.lit "\") = false)
    by (intros r c E; rewrite backslash_set; apply (Hl r c E)).
  assert (Hbs : forallb (fun c => existsb (Ascii.eqb c) (Py.lit "\")) bs = true).
  { revert Hb. apply forallb_weaken. intros c Hc.
    rewrite backslash_set. exact Hc. }
  replace (l ++ w1 ++ bs ++ w2) with ((l ++ w1 ++ bs) ++ w2)
    by (rewrite <- !app_assoc; reflexivity).
  rewrite rstrip_where_app_true by exact H2.
  destruct bs as [| b bs _] using rev_ind.
  - rewrite app_nil_r, rstrip_where_app_true by exact H1.
    rewrite (rstrip_where_clean Py.isspace l Hls).
    rewrite (rstrip_where_clean _ l Hlb).
    apply rstrip_where_clean, Hls.
  - assert (Eb : Ascii.eqb b "\"%char = true).
    { rewrite forallb_app in Hb. apply andb_true_iff in Hb.
      destruct Hb as [_ Hb]. cbn in Hb. rewrite andb_true_r in Hb. exact Hb. }
    replace (l ++ w1 ++ bs ++ [b]) with ((l ++ w1 ++ bs) ++ [b])
      by (rewrite <- !app_assoc; reflexivity).
    rewrite rstrip_where_snoc_false.
    2:{ destruct (Py.isspace b) eqn:Sb; [| reflexivity].
        rewrite (isspace_not_backslash b Sb) in Eb. discriminate. }
    replace ((l ++ w1 ++ bs) ++ [b]) with ((l ++ w1) ++ bs ++ [b])
      by (rewrite <- !app_assoc; reflexivity).
    rewrite (rstrip_where_app_true _ (l ++ w1) (bs ++ [b]) Hbs).
    rewrite (rstrip_where_clean
               (fun c => existsb (Ascii.eqb c) (Py.lit "\")) (l ++ w1)).
    + rewrite rstrip_where_app_true by exact H1.
      apply rstrip_where_clean, Hls.
    + apply (last_of_app _ Py.isspace l w1 Hlb H1).
      intros c Hc. rewrite backslash_set. apply isspace_not_backslash, Hc.
Qed.

(** X10.  A line that ends, after its text, in whitespace, then any
    number of continuation backslashes, then whitespace again (the
    newline included) is cut back to its text, provided the text itself
    ends neither in whitespace nor in a backslash. *)
Theorem strip_continuation_tail (l w1 bs w2 : Py.str) :
  (forall r c, l = r ++ [c] ->
               Py.isspace c = false /\ Ascii.eqb c "\"%char = false) ->
  forallb Py.isspace w1 = true ->
  forallb (fun c => Ascii.eqb c "\"%char) bs = true ->
  forallb Py.isspace w2 = true ->
  strip_continuation (l ++ w1 ++ bs ++ w2) = l.
Proof. exact (strip_continuation_cuts l w1 bs w2). Qed.

Lemma strip_continuation_tail_witness :
  strip_continuation
    (Py.lit "  $MIPS_HOME/rtl/a.v" ++ Py.lit " " ++ Py.lit "\" ++ ["010"%char]) =
  Py.lit "  $MIPS_HOME/rtl/a.v".
Proof.
  apply (strip_continuation_tail
           (Py.lit "  $MIPS_HOME/rtl/a.v") (Py.lit " ") (Py.lit "\")
           ["010"%char]).
  - intros r c E.
    change (Py.lit "  $MIPS_HOME/rtl/a.v")
      with (Py.lit "  $MIPS_HOME/rtl/a." ++ ["v"%char]) in E.
    apply app_inj_tail in E. destruct E as [_ <-]. split; reflexivity.
  - reflexivity.
  - reflexivity.
  - reflexivity.
Defined.

Lemma strip_continuation_split (line : Py.str) :
  (exists tail,
      line = strip_continuation line ++ tail /\
      forallb (fun c => Py.isspace c || Ascii.eqb c "\"%char) tail = true) /\
  (forall r c, strip_continuation line = r ++ [c] -> Py.isspace c = false).
Proof.
  unfold strip_continuation, Py.rstrip, Py.rstrip_chars.
  destruct (rstrip_where_split Py.isspace line) as (w1 & E1 & H1 & _).
  set (l1 := Py.rstrip_where Py.isspace line) in *.
  destruct (rstrip_where_split
              (fun c => existsb (Ascii.eqb c) (Py.lit "\")) l1)
    as (w2 & E2 & H2 & _).
  set (l2 := Py.rstrip_where _ l1) in *.
  destruct (rstrip_where_split Py.isspace l2) as (w3 & E3 & H3 & Hlast).
  split; [| exact Hlast].
  exists (w3 ++ w2 ++ w1). split.
  - rewrite E1 at 1. rewrite E2 at 1. rewrite E3 at 1.
    rewrite <- !app_assoc. reflexivity.
  - rewrite !forallb_app. apply andb_true_iff. split; [| apply andb_true_iff; split].
    + revert H3. apply forallb_weaken. intros c ->. reflexivity.
    + revert H2. apply forallb_weaken. intros c Hc.
      rewrite backslash_set in Hc. rewrite Hc. apply orb_true_r.
    + revert H1. apply forallb_weaken. intros c ->. reflexivity.
Qed.

(** X11.  The stripped line is a prefix of the line, what is dropped is
    whitespace and backslashes only, and the stripped line never ends
    in whitespace. *)
Theorem strip_continuation_prefix (line : Py.str) :
  (exists tail,
      line = strip_continuation line ++ tail /\
      forallb (fun c => Py.isspace c || Ascii.eqb c "\"%char) tail = true) /\
  (forall r c, strip_continuation line = r ++ [c] -> Py.isspace c = false).
Proof. exact (strip_continuation_split line). Qed.

(** ** One line of the file list *)

Lemma reader_eta (st : Reader) : st = mkReader (is_file st) (calls st).
Proof. destruct st; reflexivity. Qed.

(** What a line adds does not depend on the calls made before it. *)
Lemma read_line_acc (b : Py.str) (f : bool) (acc : list PlatformCall)
    (line : Py.str) :
  read_line b (mkReader f acc) line =
  mkReader (is_file (read_line b (mkReader f []) line))
           (acc ++ calls (read_line b (mkReader f []) line)).
Proof.
  unfold read_line.
  destruct (Py.contains (Py.lit "set INC_DIRS") line);
    [cbn; rewrite app_nil_r; reflexivity |].
  destruct (Py.contains (Py.lit "set RTL_SOURCE_FILES") line);
    [cbn; rewrite app_nil_r; reflexivity |].
  destruct (re_search (strip_continuation line));
    [| cbn; rewrite app_nil_r; reflexivity].
  destruct f; reflexivity.
Qed.

Lemma fold_read_line_acc (b : Py.str) (lines : list Py.str) :
  forall (f : bool) (acc : list PlatformCall),
    fold_left (read_line b) lines (mkReader f acc) =
    mkReader (is_file (fold_left (read_line b) lines (mkReader f [])))
             (acc ++ calls (fold_left (read_line b) lines (mkReader f []))).
Proof.
  induction lines as [| l rest IH]; intros f acc.
  - cbn. rewrite app_nil_r. reflexivity.
  - cbn [fold_left]. rewrite read_line_acc.
    destruct (read_line b (mkReader f []) l) as [f' d].
    cbn [is_file calls].
    rewrite (IH f' (acc ++ d)), (IH f' d). cbn [is_file calls].
    rewrite app_assoc. reflexivity.
Qed.

Lemma read_line_inc (b : Py.str) (st : Reader) (m : Py.str) :
  Py.contains (Py.lit "set INC_DIRS") m = true ->
  read_line b st m = mkReader false (calls st).
Proof. intros H. unfold read_line. rewrite H. reflexivity. Qed.

Lemma read_line_rtl (b : Py.str) (st : Reader) (m : Py.str) :
  Py.contains (Py.lit "set INC_DIRS") m = false ->
  Py.contains (Py.lit "set RTL_SOURCE_FILES") m = true ->
  read_line b st m = mkReader true (calls st).
Proof. intros H1 H2. unfold read_line. rewrite H1, H2. reflexivity. Qed.

Lemma read_line_plain (b : Py.str) (st : Reader) (line : Py.str) :
  Py.contains (Py.lit "set INC_DIRS") line = false ->
  Py.contains (Py.lit "set RTL_SOURCE_FILES") line = false ->
  read_line b st line =
  match re_search (strip_continuation line) with
  | Some g =>
      mkReader (is_file st)
        (calls st ++
         [(if is_file st then add_source else add_verilog_include_path)
            (Py.path_join b g)])
  | None => st
  end.
Proof.
  intros H1 H2. unfold read_line. rewrite H1, H2.
  destruct (re_search (strip_continuation line)); [| reflexivity].
  destruct (is_file st); reflexivity.
Qed.

(** X12.  An entry line: indentation without a dollar sign, the prefix
    [$MIPS_HOME/], a path, and a tail of whitespace and continuation
    backslashes.  It makes one call with [basedir] joined to the path,
    [add_source] when [is_file] is set and [add_verilog_include_path]
    when it is not, and leaves [is_file] alone. *)
Theorem read_line_entry
    (b : Py.str) (st : Reader) (pre g w1 bs w2 : Py.str) :
  Py.contains (Py.lit "set INC_DIRS")
    (pre ++ Py.lit "$MIPS_HOME/" ++ g ++ w1 ++ bs ++ w2) = false ->
  Py.contains (Py.lit "set RTL_SOURCE_FILES")
    (pre ++ Py.lit "$MIPS_HOME/" ++ g ++ w1 ++ bs ++ w2) = false ->
  ~ In "$"%char pre -> ~ In "010"%char g ->
  (exists r c, g = r ++ [c] /\
               Py.isspace c = false /\ Ascii.eqb c "\"%char = false) ->
  forallb Py.isspace w1 = true ->
  forallb (fun c => Ascii.eqb c "\"%char) bs = true ->
  forallb Py.isspace w2 = true ->
  read_line b st (pre ++ Py.lit "$MIPS_HOME/" ++ g ++ w1 ++ bs ++ w2) =
  mkReader (is_file st)
    (calls st ++
     [(if is_file st then add_source else add_verilog_include_path)
        (Py.path_join b g)]).
Proof.
  intros Hinc Hrtl Hd Hn (r & c & -> & Hs & Hb) H1 Hbs H2.
  rewrite read_line_plain by assumption.
  replace (pre ++ Py.lit "$MIPS_HOME/" ++ (r ++ [c]) ++ w1 ++ bs ++ w2)
    with ((pre ++ Py.lit "$MIPS_HOME/" ++ r ++ [c]) ++ w1 ++ bs ++ w2)
    by (rewrite <- !app_assoc; reflexivity).
  rewrite strip_continuation_cuts; try assumption.
  - replace (pre ++ Py.lit "$MIPS_HOME/" ++ r ++ [c])
      with (pre ++ Py.lit "$MIPS_HOME/" ++ (r ++ [c]) ++ [])
      by (rewrite app_nil_r; reflexivity).
    rewrite re_search_found; try assumption.
    + reflexivity.
    + intros E. destruct r; discriminate E.
    + now left.
  - intros r' c' E.
    replace (pre ++ Py.lit "$MIPS_HOME/" ++ r ++ [c])
      with ((pre ++ Py.lit "$MIPS_HOME/" ++ r) ++ [c]) in E
      by (rewrite <- !app_assoc; reflexivity).
    apply app_inj_tail in E. destruct E as [_ <-]. split; assumption.
Qed.

Lemma read_line_entry_witness :
  read_line (Py.lit "/opt/mips") (mkReader true [])
    (Py.lit "  " ++ Py.lit "$MIPS_HOME/" ++ Py.lit "rtl/a.v" ++
     Py.lit " " ++ Py.lit "\" ++ ["010"%char]) =
  mkReader true ([] ++ [add_source (Py.path_join (Py.lit "/opt/mips")
                                      (Py.lit "rtl/a.v"))]).
Proof.
  apply (read_line_entry (Py.lit "/opt/mips") (mkReader true [])
           (Py.lit "  ") (Py.lit "rtl/a.v") (Py.lit " ") (Py.lit "\")
           ["010"%char]).
  - reflexivity.
  - reflexivity.
  - intros [H | [H | []]]; discriminate H.
  - intros H. repeat (destruct H as [H | H]; [discriminate H |]). exact H.
  - exists (Py.lit "rtl/a."), "v"%char. repeat split.
  - reflexivity.
  - reflexivity.
  - reflexivity.
Defined.

(** ** The whole file list *)

Lemma add_sources_app (b : Py.str) (pre rest : list Py.str) :
  add_sources b (pre ++ rest) =
  fold_left (read_line b) rest (add_sources b pre).
Proof. unfold add_sources. apply fold_left_app. Qed.

(** X13.  A line that contains [set INC_DIRS] makes no call, whatever
    else it contains (a path, or [set RTL_SOURCE_FILES] as well), and
    what follows is read as at the start of the file: the calls are
    those of the lines before it, then those the rest makes on its
    own. *)
Theorem inc_dirs_marker (b : Py.str) (pre : list Py.str) (m : Py.str)
    (rest : list Py.str) :
  Py.contains (Py.lit "set INC_DIRS") m = true ->
  calls (add_sources b (pre ++ m :: rest)) =
    calls (add_sources b pre) ++ calls (add_sources b rest) /\
  is_file (add_sources b (pre ++ m :: rest)) = is_file (add_sources b rest).
Proof.
  intros H. rewrite add_sources_app. cbn [fold_left].
  rewrite (read_line_inc b _ m H), fold_read_line_acc.
  split; reflexivity.
Qed.

Lemma inc_dirs_marker_witness :
  calls (add_sources (Py.lit "/opt/mips")
           ([Py.lit "set RTL_SOURCE_FILES"; Py.lit "$MIPS_HOME/a.v"] ++
            Py.lit "set INC_DIRS set RTL_SOURCE_FILES $MIPS_HOME/x" ::
            [Py.lit "$MIPS_HOME/inc"])) =
    calls (add_sources (Py.lit "/opt/mips")
             [Py.lit "set RTL_SOURCE_FILES"; Py.lit "$MIPS_HOME/a.v"]) ++
    calls (add_sources (Py.lit "/opt/mips") [Py.lit "$MIPS_HOME/inc"]) /\
  is_file (add_sources (Py.lit "/opt/mips")
             ([Py.lit "set RTL_SOURCE_FILES"; Py.lit "$MIPS_HOME/a.v"] ++
              Py.lit "set INC_DIRS set RTL_SOURCE_FILES $MIPS_HOME/x" ::
              [Py.lit "$MIPS_HOME/inc"])) =
  is_file (add_sources (Py.lit "/opt/mips") [Py.lit "$MIPS_HOME/inc"]).
Proof.
  apply (inc_dirs_marker (Py.lit "/opt/mips")
           [Py.lit "set RTL_SOURCE_FILES"; Py.lit "$MIPS_HOME/a.v"]
           (Py.lit "set INC_DIRS set RTL_SOURCE_FILES $MIPS_HOME/x")
           [Py.lit "$MIPS_HOME/inc"]).
  reflexivity.
Defined.

(** With [is_file] set and no [set INC_DIRS] line ahead, every call is
    [add_source], on the paths the same lines give from any start. *)
Lemma source_section (b : Py.str) (body : list Py.str) :
  Forall (fun l => Py.contains (Py.lit "set INC_DIRS") l = false) body ->
  forall f,
    calls (fold_left (read_line b) body (mkReader true [])) =
    map add_source
      (map call_path (calls (fold_left (read_line b) body (mkReader f [])))).
Proof.
  induction 1 as [| l rest Hl _ IH]; intros f; [reflexivity |].
  cbn [fold_left].
  destruct (Py.contains (Py.lit "set RTL_SOURCE_FILES") l) eqn:R.
  - rewrite !(read_line_rtl b _ l Hl R). cbn [calls]. apply IH.
  - rewrite !(read_line_plain b _ l Hl R). cbn [is_file calls].
    destruct (re_search (strip_continuation l)) as [g |]; [| apply IH].
    rewrite (fold_read_line_acc b rest true), (fold_read_line_acc b rest f).
    cbn [calls app]. rewrite (IH f).
    destruct f; reflexivity.
Qed.

(** X14.  After a line that contains [set RTL_SOURCE_FILES] (and not
    [set INC_DIRS]), and as long as no [set INC_DIRS] line follows,
    every path found is registered with [add_source]: the calls are
    those of the lines before the marker, then [add_source] on each path
    of the lines after it, in order.  The marker line itself makes no
    call. *)
Theorem rtl_source_files_marker (b : Py.str) (pre : list Py.str)
    (m : Py.str) (body : list Py.str) :
  Py.contains (Py.lit "set INC_DIRS") m = false ->
  Py.contains (Py.lit "set RTL_SOURCE_FILES") m = true ->
  Forall (fun l => Py.contains (Py.lit "set INC_DIRS") l = false) body ->
  calls (add_sources b (pre ++ m :: body)) =
  calls (add_sources b pre) ++
  map add_source (map call_path (calls (add_sources b body))).
Proof.
  intros Hi Hr Hbody. rewrite add_sources_app. cbn [fold_left].
  rewrite (read_line_rtl b _ m Hi Hr), fold_read_line_acc. cbn [calls].
  f_equal. apply source_section, Hbody.
Qed.

Lemma rtl_source_files_marker_witness :
  calls (add_sources (Py.lit "/opt/mips")
           ([Py.lit "$MIPS_HOME/inc"] ++
            Py.lit "set RTL_SOURCE_FILES [list $MIPS_HOME/x" ::
            [Py.lit "$MIPS_HOME/a.v"; Py.lit "$MIPS_HOME/b.v"])) =
  calls (add_sources (Py.lit "/opt/mips") [Py.lit "$MIPS_HOME/inc"]) ++
  map add_source
    (map call_path
       (calls (add_sources (Py.lit "/opt/mips")
                 [Py.lit "$MIPS_HOME/a.v"; Py.lit "$MIPS_HOME/b.v"]))).
Proof.
  apply (rtl_source_files_marker (Py.lit "/opt/mips")
           [Py.lit "$MIPS_HOME/inc"]
           (Py.lit "set RTL_SOURCE_FILES [list $MIPS_HOME/x")
           [Py.lit "$MIPS_HOME/a.v"; Py.lit "$MIPS_HOME/b.v"]).
  - reflexivity.
  - reflexivity.
  - repeat constructor.
Defined.

(** X15.  A file list without any [set RTL_SOURCE_FILES] line registers
    no source: every call is [add_verilog_include_path], and [is_file]
    is still unset at the end. *)
Theorem no_marker_no_source (b : Py.str) (lines : list Py.str) :
  Forall (fun l => Py.contains (Py.lit "set RTL_SOURCE_FILES") l = false)
         lines ->
  is_file (add_sources b lines) = false /\
  Forall (fun c => exists p, c = add_verilog_include_path p)
         (calls (add_sources b lines)).
Proof.
  unfold add_sources.
  induction 1 as [| l rest Hl _ IH]; [split; [reflexivity | constructor] |].
  cbn [fold_left].
  assert (E : exists d,
             read_line b (mkReader false []) l = mkReader false d /\
             Forall (fun c => exists p, c = add_verilog_include_path p) d).
  { unfold read_line. rewrite Hl.
    destruct (Py.contains (Py.lit "set INC_DIRS") l);
      [exists []; split; [reflexivity | constructor] |].
    destruct (re_search (strip_continuation l)) as [g |].
    - eexists. split; [reflexivity |]. constructor; [| constructor].
      eexists. reflexivity.
    - exists []. split; [reflexivity | constructor]. }
  destruct E as (d & -> & Hd). rewrite fold_read_line_acc.
  cbn [is_file calls]. destruct IH as [IHf IHc].
  split; [exact IHf |]. apply Forall_app. split; assumption.
Qed.

Lemma no_marker_no_source_witness :
  is_file (add_sources (Py.lit "/opt/mips")
             [Py.lit "set INC_DIRS"; Py.lit "$MIPS_HOME/a.v"]) = false /\
  Forall (fun c => exists p, c = add_verilog_include_path p)
    (calls (add_sources (Py.lit "/opt/mips")
              [Py.lit "set INC_DIRS"; Py.lit "$MIPS_HOME/a.v"])).
Proof.
  apply (no_marker_no_source (Py.lit "/opt/mips")
           [Py.lit "set INC_DIRS"; Py.lit "$MIPS_HOME/a.v"]).
  repeat constructor.
Defined.

Lemma fold_read_line_provenance (b : Py.str) (lines : list Py.str) :
  forall f,
    Forall (fun c => exists line g,
                In line lines /\
                Py.contains (Py.lit "set INC_DIRS") line = false /\
                Py.contains (Py.lit "set RTL_SOURCE_FILES") line = false /\
                re_search (strip_continuation line) = Some g /\
                call_path c = Py.path_join b g)
           (calls (fold_left (read_line b) lines (mkReader f []))) /\
    (List.length (calls (fold_left (read_line b) lines (mkReader f [])))
     <= List.length lines)%nat.
Proof.
  induction lines as [| l rest IH]; intros f.
  - split; [constructor | apply le_n].
  - cbn [fold_left].
    assert (Hrest : forall f',
               Forall (fun c => exists line g,
                           In line (l :: rest) /\
                           Py.contains (Py.lit "set INC_DIRS") line = false /\
                           Py.contains (Py.lit "set RTL_SOURCE_FILES") line
                           = false /\
                           re_search (strip_continuation line) = Some g /\
                           call_path c = Py.path_join b g)
                      (calls (fold_left (read_line b) rest (mkReader f' [])))).
    { intros f'. destruct (IH f') as [H _]. revert H. apply Forall_impl.
      intros c (line & g & Hin & H). exists line, g.
      split; [now right | exact H]. }
    destruct (Py.contains (Py.lit "set INC_DIRS") l) eqn:I.
    { rewrite (read_line_inc b _ l I). cbn [calls].
      split; [apply Hrest |]. destruct (IH false) as [_ H].
      cbn [List.length]. lia. }
    destruct (Py.contains (Py.lit "set RTL_SOURCE_FILES") l) eqn:R.
    { rewrite (read_line_rtl b _ l I R). cbn [calls].
      split; [apply Hrest |]. destruct (IH true) as [_ H].
      cbn [List.length]. lia. }
    rewrite (read_line_plain b _ l I R). cbn [is_file calls].
    destruct (re_search (strip_continuation l)) as [g |] eqn:S.
    + rewrite fold_read_line_acc. cbn [calls app]. split.
      * constructor; [| apply Hrest].
        exists l, g. split; [now left |]. repeat split; try assumption.
        destruct f; reflexivity.
      * destruct (IH f) as [_ H]. cbn [List.length]. lia.
    + split; [apply Hrest |]. destruct (IH f) as [_ H].
      cbn [List.length]. lia.
Qed.

(** X16.  Every call made while the file list is read comes from a
    line of the list that contains neither marker and in which the
    search succeeds after stripping; the path handed to [platform] is
    [basedir] joined with group 1 of that line.  No line makes more than
    one call. *)
Theorem calls_provenance (b : Py.str) (lines : list Py.str) :
  Forall (fun c => exists line g,
              In line lines /\
              Py.contains (Py.lit "set INC_DIRS") line = false /\
              Py.contains (Py.lit "set RTL_SOURCE_FILES") line = false /\
              re_search (strip_continuation line) = Some g /\
              call_path c = Py.path_join b g)
         (calls (add_sources b lines)) /\
  (List.length (calls (add_sources b lines)) <= List.length lines)%nat.
Proof. exact (fold_read_line_provenance b lines false). Qed.

(** X17.  A line that contains neither marker nor the text
    [$MIPS_HOME/] (a blank line, a comment, a closing bracket) can be
    dropped from the file list, wherever it stands, without changing a
    call or the final [is_file]. *)
Theorem line_without_prefix_ignored
    (b : Py.str) (pre : list Py.str) (l : Py.str) (post : list Py.str) :
  Py.contains (Py.lit "set INC_DIRS") l = false ->
  Py.contains (Py.lit "set RTL_SOURCE_FILES") l = false ->
  Py.contains (Py.lit "$MIPS_HOME/") l = false ->
  add_sources b (pre ++ l :: post) = add_sources b (pre ++ post).
Proof.
  intros Hi Hr Hp. rewrite !add_sources_app. cbn [fold_left].
  rewrite (read_line_plain b _ l Hi Hr).
  destruct (strip_continuation_split l) as [(tail & E & _) _].
  rewrite re_search_no_prefix; [reflexivity |].
  apply (contains_prefix _ _ tail). rewrite <- E. exact Hp.
Qed.

Lemma line_without_prefix_ignored_witness :
  add_sources (Py.lit "/opt/mips")
    ([Py.lit "set RTL_SOURCE_FILES"] ++ Py.lit "# $MIPS_HOME" ::
     [Py.lit "$MIPS_HOME/a.v"]) =
  add_sources (Py.lit "/opt/mips")
    ([Py.lit "set RTL_SOURCE_FILES"] ++ [Py.lit "$MIPS_HOME/a.v"]).
Proof.
  apply (line_without_prefix_ignored (Py.lit "/opt/mips")
           [Py.lit "set RTL_SOURCE_FILES"] (Py.lit "# $MIPS_HOME")
           [Py.lit "$MIPS_HOME/a.v"]); reflexivity.
Defined.
